(** * ihm.location: external data locations and repositories

    A shallow embedding of [ihm/location.py] (python-ihm) and the
    properties of its equality convention, of [FileLocation]'s
    constructor and of [Repository._update_in_repos].

    Python objects are records of their attributes, classes are
    constructors of an enumeration, [None] is [option]'s [None].  Code
    that can raise returns a [result]; code that talks to the operating
    system or assigns to the attributes of an object it was handed runs in
    the monad [Py], which reads the operating system's state, logs the
    system calls in the order the code makes them, and threads the
    object's attributes.

    The file has four parts: the program, the vocabulary of its
    properties, the properties with their proofs, and further properties
    of the rest of the module. *)

From Stdlib Require Import ZArith Ascii String List Lia.
From stdpp Require Import base option list strings.

Open Scope string_scope.
Open Scope list_scope.

(** * Part I: the program *)

(** ** Exceptions *)

(** The exceptions this module's code can raise: the [ValueError] of
    [FileLocation.__init__] (and of [os.path.relpath] on an empty path),
    the [AttributeError] of a failed attribute lookup, and the [OSError]
    of a failed [os.stat]. *)
Inductive exception : Type :=
| ValueError (msg : string)
| AttributeError (msg : string)
| OSError (msg : string).

Inductive result (A : Type) : Type :=
| Ok (a : A)
| Raise (e : exception).
Arguments Ok {A} a.
Arguments Raise {A} e.

#[global] Instance result_ret : MRet result := λ A a, Ok a.
#[global] Instance result_bind : MBind result := λ A B f m,
  match m with
  | Ok a => f a
  | Raise e => Raise e
  end.

(** [[f(x) for x in l]] where [f] can raise: left to right, the first
    exception ends the comprehension. *)
Fixpoint comprehension {A B} (f : A → result B) (l : list A) : result (list B) :=
  match l with
  | [] => Ok []
  | x :: l' => y ← f x; ys ← comprehension f l'; Ok (y :: ys)
  end.

(** The error of a failed attribute lookup on an instance of the class
    named [cls], and on a class object. *)
Definition no_attribute (cls attr : string) : exception :=
  AttributeError ("'" +:+ cls +:+ "' object has no attribute '" +:+ attr +:+ "'").

Definition type_has_no_attribute (cls attr : string) : exception :=
  AttributeError ("type object '" +:+ cls +:+ "' has no attribute '" +:+ attr +:+ "'").

(** ** The operating system *)

(** What [os.stat] returns, as far as this module reads it. *)
Record stat_result : Type := { st_size : Z }.

(** The state of the operating system the module can observe: the
    working directory, and for every path what [stat(2)] answers ([None]:
    the call fails, nothing is there).  The state is the one a call
    finds; it does not change while the call runs. *)
Record OS : Type := {
  cwd : string;
  stat : string → option stat_result
}.

(** The system calls the module makes. *)
Inductive syscall : Type :=
| sys_stat (path : string)
| sys_getcwd.

(** ** The monad of procedures *)

(** A procedure reads the operating system and is handed an object of
    attributes [S] it may assign to; it yields the system calls it made,
    the attributes as it left them (also when it raises: an assignment
    made before the exception stays) and its result. *)
Definition Py (S A : Type) : Type := OS → S → list syscall * S * result A.

Section py_monad.
Context {S : Type}.

Definition py_ret {A} (a : A) : Py S A := λ _ s, ([], s, Ok a).

Definition py_bind {A B} (f : A → Py S B) (m : Py S A) : Py S B := λ os s,
  match m os s with
  | (calls, s', Ok a) =>
      match f a os s' with
      | (calls', s'', r) => (calls ++ calls', s'', r)
      end
  | (calls, s', Raise e) => (calls, s', Raise e)
  end.

Definition raise {A} (e : exception) : Py S A := λ _ s, ([], s, Raise e).

(** A computation that cannot touch the system or the object. *)
Definition lift {A} (r : result A) : Py S A := λ _ s, ([], s, r).

(** [self.attr] and [self.attr = v], for an attribute that is set. *)
Definition get {A} (attr : S → A) : Py S A := λ _ s, ([], s, Ok (attr s)).
Definition set (update : S → S) : Py S unit := λ _ s, ([], update s, Ok tt).

(** [try: body / except OSError: handler]. *)
Definition try_except_OSError {A} (body handler : Py S A) : Py S A := λ os s,
  match body os s with
  | (calls, s', Raise (OSError _)) =>
      match handler os s' with
      | (calls', s'', r) => (calls ++ calls', s'', r)
      end
  | other => other
  end.

(** [os.getcwd()] and [os.stat(path)]. *)
Definition os_getcwd : Py S string := λ os s, ([sys_getcwd], s, Ok (cwd os)).

Definition os_stat (path : string) : Py S stat_result := λ os s,
  ([sys_stat path], s,
   match stat os path with
   | Some st => Ok st
   | None => Raise (OSError ("[Errno 2] No such file or directory: '" +:+ path +:+ "'"))
   end).
End py_monad.

#[global] Instance Py_ret {S} : MRet (Py S) := λ A, py_ret.
#[global] Instance Py_bind {S} : MBind (Py S) := λ A B, py_bind.

(** [for x in l: body]. *)
Fixpoint for_each {S A} (l : list A) (body : A → Py S unit) : Py S unit :=
  match l with
  | [] => mret tt
  | x :: l' => body x;; for_each l' body
  end.

(** The three components of a run. *)
Definition calls_of {S A} (run : list syscall * S * result A) : list syscall := run.1.1.
Definition state_of {S A} (run : list syscall * S * result A) : S := run.1.2.
Definition result_of {S A} (run : list syscall * S * result A) : result A := run.2.

(** ** Strings *)

(** A string is a list of the characters of [ascii], and its length the
    number of them.  [s.startswith(prefix)], [s.endswith(suffix)],
    [len(s)], [sub in s], [s.split(sep)] for a one-character separator,
    [sep.join(l)] and [s * n]. *)
Definition startswith (s pre : string) : bool := String.prefix pre s.

Definition endswith (s suf : string) : bool :=
  String.prefix (String.rev suf) (String.rev s).

Definition len (s : string) : nat := String.length s.

Fixpoint contains (s sub : string) : bool :=
  startswith s sub
  || match s with
     | EmptyString => false
     | String _ s' => contains s' sub
     end.

Fixpoint split (s : string) (sep : ascii) : list string :=
  match s with
  | EmptyString => [""]
  | String c s' =>
      if Ascii.eqb c sep then "" :: split s' sep
      else match split s' sep with
           | comp :: comps => String c comp :: comps
           | [] => [String c ""]
           end
  end.

Fixpoint str_join (sep : string) (l : list string) : string :=
  match l with
  | [] => ""
  | [x] => x
  | x :: l' => x +:+ sep +:+ str_join sep l'
  end.

Fixpoint str_times (s : string) (n : nat) : string :=
  match n with
  | O => ""
  | Datatypes.S n' => s +:+ str_times s n'
  end.

(** ** os.path on POSIX

    The functions of Python's [posixpath] the module calls, after the
    library's source.  They are string functions; [abspath] and through it
    [relpath] ask for the working directory when handed a relative
    path. *)
Module posixpath.
Definition sep : ascii := "/"%char.
Definition curdir : string := ".".
Definition pardir : string := "..".

Definition isabs (s : string) : bool := startswith s "/".

(** [join(a, *p)]: a component that starts with a slash discards what
    came before it. *)
Fixpoint join (a : string) (p : list string) : string :=
  match p with
  | [] => a
  | b :: p' =>
      join (if startswith b "/" then b
            else if bool_decide (a = "") || endswith a "/" then a +:+ b
            else a +:+ "/" +:+ b) p'
  end.

(** One round of the loop of [normpath] over the components. *)
Definition normpath_comp (initial_slashes : nat) (new_comps : list string)
    (comp : string) : list string :=
  if bool_decide (comp = "") || bool_decide (comp = ".") then new_comps
  else if bool_decide (comp ≠ "..")
          || (bool_decide (initial_slashes = 0) && bool_decide (new_comps = []))
          || (bool_decide (new_comps ≠ []) && bool_decide (last new_comps = Some ".."))
       then new_comps ++ [comp]
       else if bool_decide (new_comps ≠ []) then removelast new_comps
       else new_comps.

Definition normpath (path : string) : string :=
  if bool_decide (path = "") then "."
  else
    let initial_slashes :=
      if startswith path "/"
      then if startswith path "//" && negb (startswith path "///") then 2 else 1
      else 0 in
    let comps := foldl (normpath_comp initial_slashes) [] (split path sep) in
    let path := str_join "/" comps in
    let path := str_times "/" initial_slashes +:+ path in
    if bool_decide (path = "") then "." else path.

(** [abspath] given the working directory. *)
Definition abspath_in (cwd path : string) : string :=
  if isabs path then normpath path else normpath (join cwd [path]).

(** [commonprefix([l1, l2])] for two lists of components: the library
    takes the common prefix of the smaller and the larger list, which for
    two lists is their longest common prefix. *)
Fixpoint commonprefix (l1 l2 : list string) : list string :=
  match l1, l2 with
  | x :: l1', y :: l2' => if bool_decide (x = y) then x :: commonprefix l1' l2' else []
  | _, _ => []
  end.

(** [[x for x in s.split(sep) if x]]. *)
Definition components (s : string) : list string :=
  filter (λ x, x ≠ "") (split s sep).

(** What [relpath] returns from the two absolute paths. *)
Definition relpath_of (abs_path abs_start : string) : string :=
  let start_list := components abs_start in
  let path_list := components abs_path in
  let i := length (commonprefix start_list path_list) in
  let rel_list := replicate (length start_list - i) pardir ++ drop i path_list in
  match rel_list with
  | [] => curdir
  | a :: p => join a p
  end.

Section procedures.
Context {S : Type}.

(** [exists]: [os.stat] succeeded. *)
Definition exists_ (path : string) : Py S bool :=
  try_except_OSError (os_stat path;; mret true) (mret false).

Definition abspath (path : string) : Py S string :=
  if isabs path then mret (normpath path)
  else cwd ← os_getcwd; mret (normpath (join cwd [path])).

Definition relpath (path start : string) : Py S string :=
  if bool_decide (path = "") then raise (ValueError "no path specified")
  else
    abs_start ← abspath start;
    abs_path ← abspath path;
    mret (relpath_of abs_path abs_start).
End procedures.
End posixpath.

(** ** The data model *)

(** The classes of the [Location] hierarchy.  A class object is compared
    by identity: two classes are the same class iff they are the same
    constructor. *)
Module Cls.
Inductive database : Type :=
| DatabaseLocation | EMDBLocation | PDBLocation | MassIVELocation
| EMPIARLocation | SASBDBLocation.

Inductive file : Type :=
| FileLocation | InputFileLocation | OutputFileLocation
| WorkflowFileLocation | VisualizationFileLocation.

Inductive t : Type :=
| Location
| Database (c : database)
| File (c : file).

#[global] Instance database_eq_dec : EqDecision database.
Proof. solve_decision. Defined.
#[global] Instance file_eq_dec : EqDecision file.
Proof. solve_decision. Defined.
#[global] Instance eq_dec : EqDecision t.
Proof. solve_decision. Defined.

Definition __name__ (c : t) : string :=
  match c with
  | Location => "Location"
  | Database DatabaseLocation => "DatabaseLocation"
  | Database EMDBLocation => "EMDBLocation"
  | Database PDBLocation => "PDBLocation"
  | Database MassIVELocation => "MassIVELocation"
  | Database EMPIARLocation => "EMPIARLocation"
  | Database SASBDBLocation => "SASBDBLocation"
  | File FileLocation => "FileLocation"
  | File InputFileLocation => "InputFileLocation"
  | File OutputFileLocation => "OutputFileLocation"
  | File WorkflowFileLocation => "WorkflowFileLocation"
  | File VisualizationFileLocation => "VisualizationFileLocation"
  end.

(** The class attributes.  [_eq_keys] is [[]] in [Location] and is
    extended by [DatabaseLocation] and by [FileLocation]; no class
    overrides [_allow_duplicates]; the four subclasses of
    [FileLocation] override [content_type]. *)
Definition _eq_keys (c : t) : list string :=
  match c with
  | Location => []
  | Database _ => [] ++ ["db_name"; "access_code"; "version"]
  | File _ => [] ++ ["repo"; "path"; "content_type"]
  end.

Definition _allow_duplicates (c : t) : bool := false.

Definition content_type (c : file) : option string :=
  match c with
  | FileLocation => None
  | InputFileLocation => Some "Input data or restraints"
  | OutputFileLocation => Some "Modeling or post-processing output"
  | WorkflowFileLocation => Some "Modeling workflow or script"
  | VisualizationFileLocation => Some "Visualization script"
  end.
End Cls.

(** A [Repository] object.  [_root] is an attribute that [__init__] sets
    only when it is handed a root: [None] here says the object has no
    such attribute (not that the attribute is [None]). *)
Record repository : Type := {
  doi : string;
  url : option string;
  top_directory : option string;
  _root : option string
}.

#[global] Instance repository_eq_dec : EqDecision repository.
Proof. solve_decision. Defined.

(** What [Location.__init__] sets, with the identity [id(self)] of the
    object. *)
Record base_location : Type := {
  ob_id : N;
  details : option string
}.

Record database_location : Type := {
  db_base :> base_location;
  db_class : Cls.database;
  db_name : string;
  access_code : string;
  version : option string
}.

Record file_location : Type := {
  file_base :> base_location;
  file_class : Cls.file;
  repo : option repository;
  path : string;
  file_size : option Z
}.

Inductive location : Type :=
| a_Location (o : base_location)
| a_DatabaseLocation (o : database_location)
| a_FileLocation (o : file_location).

(** The values an attribute of these objects holds, and the members of
    the tuple [_eq_vals] builds. *)
Inductive value : Type :=
| v_None
| v_str (s : string)
| v_int (n : Z)
| v_class (c : Cls.t)
| v_Repository (r : repository).

(** The objects a location can be compared with. *)
Inductive object : Type :=
| o_None
| o_str (s : string)
| o_int (n : Z)
| o_Repository (r : repository)
| o_Location (l : location).

Definition type_name (o : object) : string :=
  match o with
  | o_None => "NoneType"
  | o_str _ => "str"
  | o_int _ => "int"
  | o_Repository _ => "Repository"
  | o_Location (a_Location _) => Cls.__name__ Cls.Location
  | o_Location (a_DatabaseLocation o) => Cls.__name__ (Cls.Database (db_class o))
  | o_Location (a_FileLocation o) => Cls.__name__ (Cls.File (file_class o))
  end.

(** [if x:] for an [x] that is [None] or an instance of a class without
    [__bool__] and [__len__]. *)
Definition truthy {A} (x : option A) : bool :=
  match x with Some _ => true | None => false end.

(** [x is None]. *)
Definition is_None {A} (x : option A) : bool :=
  match x with Some _ => false | None => true end.

Definition optional_str (x : option string) : value :=
  match x with Some s => v_str s | None => v_None end.

Definition optional_int (x : option Z) : value :=
  match x with Some n => v_int n | None => v_None end.

Definition optional_Repository (x : option repository) : value :=
  match x with Some r => v_Repository r | None => v_None end.

(** The hash functions of the interpreter: [hash(None)], [hash] of a
    string, of an integer, of a class object, and of a tuple, which is
    computed from the hashes of the members. *)
Record hashes : Type := {
  hash_None : Z;
  hash_str : string → Z;
  hash_int : Z → Z;
  hash_class : Cls.t → Z;
  hash_tuple : list Z → Z
}.

Definition hash_optional_str (H : hashes) (x : option string) : Z :=
  match x with Some s => hash_str H s | None => hash_None H end.

(** ** class Repository

    (The classes follow in the order their definitions need: the
    equality of locations compares repositories.) *)
Module Repository.
Definition reference_type : string := "DOI".

(** [__eq__]: [self.doi == other.doi and self.url == other.url].  The
    lookup of [other.doi] fails on an object that is not a
    repository. *)
Definition __eq__ (self : repository) (other : value) : result bool :=
  match other with
  | v_Repository other =>
      Ok (bool_decide (doi self = doi other) && bool_decide (url self = url other))
  | v_None => Raise (no_attribute "NoneType" "doi")
  | v_str _ => Raise (no_attribute "str" "doi")
  | v_int _ => Raise (no_attribute "int" "doi")
  | v_class c => Raise (type_has_no_attribute (Cls.__name__ c) "doi")
  end.

(** [repo._root], an attribute that may not be there. *)
Definition get__root (self : repository) : result string :=
  match _root self with
  | Some root => Ok root
  | None => Raise (no_attribute "Repository" "_root")
  end.

Section procedures.
Context {S : Type}.

Definition __init__ (doi : string) (root url top_directory : option string)
    : Py S repository :=
  match root with
  | Some root =>
      abs_root ← posixpath.abspath root;
      mret {| doi := doi; url := url; top_directory := top_directory;
              _root := Some abs_root |}
  | None =>
      mret {| doi := doi; url := url; top_directory := top_directory;
              _root := None |}
  end.
End procedures.

Definition reference (self : repository) : string := doi self.

Definition reference_provider (self : repository) : option string :=
  if contains (reference self) "zenodo" then Some "Zenodo" else None.

(** [if self.url:] holds for a string that is not empty. *)
Definition refers_to (self : repository) : string :=
  match url self with
  | Some url_ =>
      if bool_decide (url_ ≠ "")
      then if endswith url_ ".zip" then "Archive" else "File"
      else "Other"
  | None => "Other"
  end.

(** [fileloc.repo = repo'] and [fileloc.path = path']. *)
Definition set_repo (repo' : option repository) (fileloc : file_location) : file_location :=
  {| file_base := file_base fileloc; file_class := file_class fileloc;
     repo := repo'; path := path fileloc; file_size := file_size fileloc |}.

Definition set_path (path' : string) (fileloc : file_location) : file_location :=
  {| file_base := file_base fileloc; file_class := file_class fileloc;
     repo := repo fileloc; path := path'; file_size := file_size fileloc |}.

(** The body of the loop of [_update_in_repos], for one repository;
    [len(fileloc.path) > len(relpath)] is written with [<]. *)
Definition try_repo (orig_path : string) (repo_ : repository) : Py file_location unit :=
  root ← lift (get__root repo_);
  relpath ← posixpath.relpath orig_path root;
  if negb (startswith relpath "..") then
    fileloc_repo ← get repo;
    fileloc_path ← get path;
    if is_None fileloc_repo || bool_decide (len relpath < len fileloc_path) then
      set (set_repo (Some repo_));;
      set (set_path relpath)
    else mret tt
  else mret tt.

(** [_update_in_repos(fileloc, repos)]: the procedure runs on the
    attributes of [fileloc]. *)
Definition _update_in_repos_body (repos : list repository) : Py file_location unit :=
  fileloc_repo ← get repo;
  if truthy fileloc_repo then mret tt
  else
    orig_path ← get path;
    for_each repos (try_repo orig_path).

Definition _update_in_repos (fileloc : file_location) (repos : list repository)
    (os : OS) : list syscall * file_location * result unit :=
  _update_in_repos_body repos os fileloc.

(** [_get_full_path]. *)
Definition _get_full_path (self : repository) (path : string) : string :=
  posixpath.join (default "" (top_directory self)) [path].

(** [__hash__]: [hash((self.doi, self.url))]. *)
Definition __hash__ (H : hashes) (self : repository) : Z :=
  hash_tuple H [hash_str H (doi self); hash_optional_str H (url self)].
End Repository.

(** ** Equality of attribute values *)

(** [x == y] on the values of attributes.  A repository on either side
    answers with [Repository.__eq__] (the other types return
    [NotImplemented] for a repository, so the reflected method runs);
    class objects, strings, integers and [None] compare by value.  The
    identity shortcut of tuple comparison is not modelled apart: on the
    same object [Repository.__eq__] is true as well. *)
Definition value_eq (x y : value) : result bool :=
  match x, y with
  | v_Repository r, _ => Repository.__eq__ r y
  | _, v_Repository r => Repository.__eq__ r x
  | v_None, v_None => Ok true
  | v_str s, v_str s' => Ok (bool_decide (s = s'))
  | v_int n, v_int n' => Ok (bool_decide (n = n'))
  | v_class c, v_class c' => Ok (bool_decide (c = c'))
  | _, _ => Ok false
  end.

(** [==] on tuples: the first pair of members that differ decides; an
    exception of a member's comparison passes through. *)
Fixpoint tuple_eq (v w : list value) : result bool :=
  match v, w with
  | [], [] => Ok true
  | x :: v', y :: w' => k ← value_eq x y; if k : bool then tuple_eq v' w' else Ok false
  | _, _ => Ok false
  end.

(** [hash(x)] on the values of attributes. *)
Definition value_hash (H : hashes) (x : value) : Z :=
  match x with
  | v_None => hash_None H
  | v_str s => hash_str H s
  | v_int n => hash_int H n
  | v_class c => hash_class H c
  | v_Repository r => Repository.__hash__ H r
  end.

(** ** class Location *)

(** What [_eq_vals] returns: [id(self)], or a tuple. *)
Inductive eq_vals : Type :=
| an_id (n : N)
| a_tuple (l : list value).

Module Location.
Definition __class__ (self : location) : Cls.t :=
  match self with
  | a_Location _ => Cls.Location
  | a_DatabaseLocation o => Cls.Database (db_class o)
  | a_FileLocation o => Cls.File (file_class o)
  end.

Definition base (self : location) : base_location :=
  match self with
  | a_Location o => o
  | a_DatabaseLocation o => o
  | a_FileLocation o => o
  end.

Definition id (self : location) : N := ob_id (base self).

Definition __init__ (self : N) (details : option string) : base_location :=
  {| ob_id := self; details := details |}.

(** [getattr(self, name)]: the attributes of the instance, then those
    of its class. *)
Definition getattr (self : location) (name : string) : result value :=
  if bool_decide (name = "details") then Ok (optional_str (details (base self)))
  else
    match self with
    | a_Location _ => Raise (no_attribute (Cls.__name__ (__class__ self)) name)
    | a_DatabaseLocation o =>
        if bool_decide (name = "db_name") then Ok (v_str (db_name o))
        else if bool_decide (name = "access_code") then Ok (v_str (access_code o))
        else if bool_decide (name = "version") then Ok (optional_str (version o))
        else Raise (no_attribute (Cls.__name__ (__class__ self)) name)
    | a_FileLocation o =>
        if bool_decide (name = "repo") then Ok (optional_Repository (repo o))
        else if bool_decide (name = "path") then Ok (v_str (path o))
        else if bool_decide (name = "file_size") then Ok (optional_int (file_size o))
        else if bool_decide (name = "content_type")
             then Ok (optional_str (Cls.content_type (file_class o)))
        else Raise (no_attribute (Cls.__name__ (__class__ self)) name)
    end.

Definition _eq_vals (self : location) : result eq_vals :=
  if Cls._allow_duplicates (__class__ self) then Ok (an_id (id self))
  else
    vals ← comprehension (getattr self) (Cls._eq_keys (__class__ self));
    Ok (a_tuple ([v_class (__class__ self)] ++ vals)).

(** [==] on what [_eq_vals] returns: two integers, two tuples, or an
    integer and a tuple, which are never equal. *)
Definition eq_vals_eq (x y : eq_vals) : result bool :=
  match x, y with
  | an_id n, an_id n' => Ok (bool_decide (n = n'))
  | a_tuple v, a_tuple w => tuple_eq v w
  | _, _ => Ok false
  end.

(** [other._eq_vals()]: only a location has the method. *)
Definition call__eq_vals (other : object) : result eq_vals :=
  match other with
  | o_Location l => _eq_vals l
  | _ => Raise (no_attribute (type_name other) "_eq_vals")
  end.

Definition __eq__ (self : location) (other : object) : result bool :=
  mine ← _eq_vals self;
  theirs ← call__eq_vals other;
  eq_vals_eq mine theirs.

(** [__hash__]: [hash(self._eq_vals())]. *)
Definition __hash__ (H : hashes) (self : location) : result Z :=
  vals ← _eq_vals self;
  Ok (match vals with
      | an_id n => hash_int H (Z.of_N n)
      | a_tuple l => hash_tuple H (value_hash H <$> l)
      end).
End Location.

(** ** class DatabaseLocation and its subclasses *)

Module DatabaseLocation.
(** [__init__] of the class [cls], one of [DatabaseLocation] and its
    subclasses, on the new object [self]. *)
Definition __init__ (self : N) (cls : Cls.database) (db_name db_code : string)
    (version details : option string) : database_location :=
  {| db_base := Location.__init__ self details; db_class := cls;
     db_name := db_name; access_code := db_code; version := version |}.
End DatabaseLocation.

Module EMDBLocation.
Definition __init__ (self : N) (db_code : string) (version details : option string) :=
  DatabaseLocation.__init__ self Cls.EMDBLocation "EMDB" db_code version details.
End EMDBLocation.

Module PDBLocation.
Definition __init__ (self : N) (db_code : string) (version details : option string) :=
  DatabaseLocation.__init__ self Cls.PDBLocation "PDB" db_code version details.
End PDBLocation.

Module MassIVELocation.
Definition __init__ (self : N) (db_code : string) (version details : option string) :=
  DatabaseLocation.__init__ self Cls.MassIVELocation "MASSIVE" db_code version details.
End MassIVELocation.

Module EMPIARLocation.
Definition __init__ (self : N) (db_code : string) (version details : option string) :=
  DatabaseLocation.__init__ self Cls.EMPIARLocation "EMPIAR" db_code version details.
End EMPIARLocation.

Module SASBDBLocation.
Definition __init__ (self : N) (db_code : string) (version details : option string) :=
  DatabaseLocation.__init__ self Cls.SASBDBLocation "SASBDB" db_code version details.
End SASBDBLocation.

(** ** class FileLocation and its subclasses *)

Module FileLocation.
Section procedures.
Context {S : Type}.

(** [__init__] of the class [cls], one of [FileLocation] and its
    subclasses (none overrides it), on the new object [self]. *)
Definition __init__ (self : N) (cls : Cls.file) (path : string)
    (repo : option repository) (details : option string) : Py S file_location :=
  let base := Location.__init__ self details in
  if truthy repo then
    mret {| file_base := base; file_class := cls; repo := repo;
            path := path; file_size := None |}
  else
    found ← posixpath.exists_ path;
    if negb found then raise (ValueError (path +:+ " does not exist"))
    else
      st ← os_stat path;
      abs_path ← posixpath.abspath path;
      mret {| file_base := base; file_class := cls; repo := repo;
              path := abs_path; file_size := Some (st_size st) |}.
End procedures.
End FileLocation.

(** * Part II: the vocabulary of the properties *)

(** ** Local files *)

(** A local file, as the constructor leaves it when it is handed no
    repository: [repo] is [None], and [path] is what [abspath] returned,
    which is never the empty string. *)
Definition is_local (fileloc : file_location) : Prop :=
  repo fileloc = None ∧ path fileloc ≠ "".

(** ** What a procedure keeps *)

(** [preserves R m]: however [m] ends, returning or raising, the object
    as it leaves it is related by [R] to the object it was handed. *)
Definition preserves {S A} (R : relation S) (m : Py S A) : Prop :=
  ∀ os s, R s (state_of (m os s)).

(** The attributes [_update_in_repos] does not assign to. *)
Definition same_frame (fileloc fileloc' : file_location) : Prop :=
  file_base fileloc' = file_base fileloc
  ∧ file_class fileloc' = file_class fileloc
  ∧ file_size fileloc' = file_size fileloc.

(** ** The repository a local file is bound to *)

(** The path of the file expressed relative to a root: what
    [os.path.relpath] returns. *)
Definition relative_to (os : OS) (orig_path root : string) : string :=
  posixpath.relpath_of (posixpath.abspath_in (cwd os) orig_path)
    (posixpath.abspath_in (cwd os) root).

(** A repository with a root matches when the relative path does not
    start with the parent directory marker; the match is the repository
    with that relative path. *)
Definition match_of (os : OS) (orig_path : string) (r : repository)
    : option (repository * string) :=
  root ← _root r;
  let relpath := relative_to os orig_path root in
  if startswith relpath ".." then None else Some (r, relpath).

(** All matches, in the order of the sequence of repositories. *)
Definition matches (os : OS) (orig_path : string) (repos : list repository)
    : list (repository * string) :=
  omap (match_of os orig_path) repos.

(** The [i]-th candidate is the winner: no candidate has a shorter
    relative path, and every candidate seen before it has a strictly
    longer one (so of several shortest candidates, the first seen
    wins). *)
Definition shortest_first_seen (cands : list (repository * string)) (i : nat)
    (c : repository * string) : Prop :=
  cands !! i = Some c
  ∧ (∀ j c', cands !! j = Some c' → (len c.2 ≤ len c'.2)%nat)
  ∧ (∀ j c', (j < i)%nat → cands !! j = Some c' → (len c.2 < len c'.2)%nat).

(** A location after it was bound to a repository under a relative
    path. *)
Definition bind_to (r : repository) (relpath : string) (fileloc : file_location)
    : file_location :=
  Repository.set_path relpath (Repository.set_repo (Some r) fileloc).

(** What one round of the loop does to the location, when the repository
    has a root. *)
Definition round (os : OS) (orig_path : string) (fileloc : file_location)
    (r : repository) : file_location :=
  match match_of os orig_path r with
  | Some (_, relpath) =>
      if is_None (repo fileloc) || bool_decide (len relpath < len (path fileloc))
      then bind_to r relpath fileloc
      else fileloc
  | None => fileloc
  end.

(** The invariant of the loop: after the rounds for the repositories
    that gave the candidates [cands], the location is as it was if nothing
    matched so far, and is bound to the winner among the matches so far
    otherwise. *)
Inductive chosen (fileloc : file_location) (cands : list (repository * string))
    : file_location → Prop :=
| chosen_none : cands = [] → chosen fileloc cands fileloc
| chosen_some i r relpath :
    shortest_first_seen cands i (r, relpath) →
    chosen fileloc cands (bind_to r relpath fileloc).

(** ** Equal values *)

(** Two attribute values are equal: the same [None], string, integer or
    class, or two repositories with the same [doi] and the same [url]. *)
Definition same_value (v w : value) : Prop :=
  match v, w with
  | v_Repository r, v_Repository r' => doi r = doi r' ∧ url r = url r'
  | v_Repository _, _ | _, v_Repository _ => False
  | _, _ => v = w
  end.

(** The same location but for what [Location.__init__] set: another
    object, with other [details]. *)
Definition with_base (base' : base_location) (self : location) : location :=
  match self with
  | a_Location _ => a_Location base'
  | a_DatabaseLocation o =>
      a_DatabaseLocation
        {| db_base := base'; db_class := db_class o; db_name := db_name o;
           access_code := access_code o; version := version o |}
  | a_FileLocation o =>
      a_FileLocation
        {| file_base := base'; file_class := file_class o; repo := repo o;
           path := path o; file_size := file_size o |}
  end.

(** ** Repositories and paths *)

(** Two values of the attribute [repo] are equal: both [None], or two
    repositories with the same [doi] and the same [url]. *)
Definition same_repository (x y : option repository) : Prop :=
  match x, y with
  | Some r, Some r' => doi r = doi r' ∧ url r = url r'
  | None, None => True
  | _, _ => False
  end.

(** A repository that is checked out, and one whose root, if it has
    one, is an absolute path. *)
Definition has_root (r : repository) : Prop := is_Some (_root r).

Definition absolute_root (r : repository) : Prop :=
  ∀ root, _root r = Some root → posixpath.isabs root = true.

(** A path inside a root: not empty, not absolute, and not starting
    with the parent directory marker. *)
Definition inside_root (path_ : string) : Prop :=
  path_ ≠ "" ∧ posixpath.isabs path_ = false ∧ startswith path_ ".." = false.

(** A component a path can be joined from: not empty, and not starting
    with a slash. *)
Definition plain (e : string) : Prop := e ≠ "" ∧ posixpath.isabs e = false.

(** What [top_directory] puts in front of a relative path: nothing when
    there is none or it is empty, else the directory, with a slash unless
    it ends in one. *)
Definition top_prefix (r : repository) : string :=
  match top_directory r with
  | None => ""
  | Some d => if bool_decide (d = "") || endswith d "/" then d else d +:+ "/"
  end.

(** The constructors of the five subclasses of [DatabaseLocation]. *)
Definition database_constructors
    : list (N → string → option string → option string → database_location) :=
  [EMDBLocation.__init__; PDBLocation.__init__; MassIVELocation.__init__;
   EMPIARLocation.__init__; SASBDBLocation.__init__].

(** ** A worked example *)

Module example.
(** A system with one file, [/data/proj/sub/file.txt] of 42 bytes, seen
    from the working directory [/data/proj]. *)
Definition os : OS :=
  {| cwd := "/data/proj";
     stat := λ path_,
       if bool_decide (path_ = "/data/proj/sub/file.txt") || bool_decide (path_ = "sub/file.txt")
       then Some {| st_size := 42 |}
       else None |}.

Definition file : file_location :=
  {| file_base := {| ob_id := 1; details := None |};
     file_class := Cls.InputFileLocation; repo := None;
     path := "/data/proj/sub/file.txt"; file_size := Some 42%Z |}.

Definition proj : repository :=
  {| doi := "10.5281/zenodo.46266"; url := None; top_directory := None;
     _root := Some "/data/proj" |}.

Definition sub : repository :=
  {| doi := "10.5281/zenodo.820724"; url := None; top_directory := None;
     _root := Some "/data/proj/sub" |}.

Definition elsewhere : repository :=
  {| doi := "10.5281/zenodo.1218053"; url := None; top_directory := None;
     _root := Some "/data/other" |}.

(** A second checkout of another archive at the root of [proj]. *)
Definition mirror : repository :=
  {| doi := "10.5281/zenodo.820724"; url := None; top_directory := None;
     _root := Some "/data/proj" |}.

(** An archive that is not checked out. *)
Definition unrooted : repository :=
  {| doi := "10.5281/zenodo.46266";
     url := Some "https://zenodo.org/record/46266/files/nup84.zip";
     top_directory := Some "nup84-v1.0"; _root := None |}.

Definition pdb : location :=
  a_DatabaseLocation (PDBLocation.__init__ 2 "1abc" None (Some "crystal structure")).

Definition emdb : location :=
  a_DatabaseLocation (EMDBLocation.__init__ 3 "1abc" None (Some "crystal structure")).

(** The file once it is known to be in [sub]. *)
Definition bound_file : file_location := bind_to sub "file.txt" file.

(** Hash functions to run the example with. *)
Definition hashes : hashes :=
  {| hash_None := 0;
     hash_str := λ s, Z.of_nat (len s);
     hash_int := λ n, n;
     hash_class := λ c, Z.of_nat (len (Cls.__name__ c));
     hash_tuple := λ l, foldr Z.add 0%Z l |}.

(** The file under another spelling of its path, and in another
    object. *)
Definition file_again : file_location :=
  {| file_base := {| ob_id := 4; details := Some "the same file" |};
     file_class := Cls.InputFileLocation; repo := None;
     path := "/data/proj/sub/file.txt"; file_size := Some 42%Z |}.

(** The archive of [proj] described without a checkout. *)
Definition proj_archive : repository :=
  {| doi := "10.5281/zenodo.46266"; url := None;
     top_directory := Some "proj-1.0"; _root := None |}.

(** A checkout of [proj] whose archive holds the files in a directory. *)
Definition release : repository :=
  {| doi := "10.5281/zenodo.46266";
     url := Some "https://zenodo.org/record/46266/files/proj.zip";
     top_directory := Some "proj-1.0"; _root := Some "/data/proj" |}.

(** The system later: another working directory, and the file gone. *)
Definition os_later : OS := {| cwd := "/tmp"; stat := λ _, None |}.
End example.

(** * Part III: properties *)

(** ** Running procedures *)

Ltac unfold_py :=
  unfold mbind, mret, Py_bind, Py_ret, py_bind, py_ret, raise, lift, get, set,
    try_except_OSError, os_getcwd, os_stat in *.

Section runs.
Context {S : Type}.
Implicit Types (os : OS) (s : S).

Lemma run_bind_Ok {A B} (m : Py S A) (f : A → Py S B) os s calls s' a :
  m os s = (calls, s', Ok a) →
  (m ≫= f) os s = ((calls ++ calls_of (f a os s'))%list, state_of (f a os s'), result_of (f a os s')).
Proof.
  intros Hm. unfold_py. rewrite Hm.
  by destruct (f a os s') as [[calls' s''] r].
Qed.

Lemma run_bind_Raise {A B} (m : Py S A) (f : A → Py S B) os s calls s' e :
  m os s = (calls, s', Raise e) →
  (m ≫= f) os s = (calls, s', Raise e).
Proof. intros Hm. unfold_py. by rewrite Hm. Qed.

(** [exists] makes one [stat] call and says whether it succeeded. *)
Lemma run_exists path os s :
  posixpath.exists_ path os s = ([sys_stat path], s, Ok (bool_decide (is_Some (stat os path)))).
Proof.
  unfold posixpath.exists_. unfold_py.
  by destruct (stat os path) as [st|].
Qed.

(** [abspath] asks for the working directory iff the path is relative;
    it never raises and returns [abspath_in]. *)
Lemma run_abspath path os s :
  posixpath.abspath path os s =
    (if posixpath.isabs path then [] else [sys_getcwd], s,
     Ok (posixpath.abspath_in (cwd os) path)).
Proof.
  unfold posixpath.abspath, posixpath.abspath_in.
  by destruct (posixpath.isabs path).
Qed.

(** [relpath] of a path that is not empty. *)
Lemma run_relpath path start os s :
  path ≠ "" →
  posixpath.relpath path start os s =
    ((if posixpath.isabs start then [] else [sys_getcwd]) ++
     (if posixpath.isabs path then [] else [sys_getcwd]), s,
     Ok (posixpath.relpath_of (posixpath.abspath_in (cwd os) path)
           (posixpath.abspath_in (cwd os) start))).
Proof.
  intros Hpath. unfold posixpath.relpath.
  rewrite bool_decide_eq_false_2 by done.
  rewrite (run_bind_Ok _ _ _ _ _ _ _ (run_abspath start os s)).
  rewrite (run_bind_Ok _ _ _ _ _ _ _ (run_abspath path os s)).
  simpl. by rewrite app_nil_r.
Qed.

Lemma run_relpath_empty start os s :
  posixpath.relpath "" start os s = ([], s, Raise (ValueError "no path specified")).
Proof. done. Qed.

(** Whatever it is handed, [relpath] leaves the object alone. *)
Lemma relpath_state path start os s :
  state_of (posixpath.relpath path start os s) = s.
Proof.
  destruct (decide (path = "")) as [->|Hpath]; [done|].
  by rewrite run_relpath.
Qed.
End runs.

(** ** Strings *)

Lemma startswith_app (s t : string) : startswith (s +:+ t) s = true.
Proof.
  unfold startswith. induction s as [|c s IH]; simpl.
  - by destruct t.
  - by destruct (ascii_dec c c).
Qed.

(** ** FileLocation.__init__ *)

Lemma normpath_not_empty path_ : posixpath.normpath path_ ≠ "".
Proof.
  unfold posixpath.normpath.
  case_bool_decide; [done|].
  by case_bool_decide.
Qed.

Lemma abspath_in_not_empty cwd_ path_ : posixpath.abspath_in cwd_ path_ ≠ "".
Proof.
  unfold posixpath.abspath_in.
  destruct (posixpath.isabs path_); apply normpath_not_empty.
Qed.

Section FileLocation_init.
Context {S : Type}.
Implicit Types (os : OS) (s : S) (cls : Cls.file).

(** Every object the constructor returns when handed no repository is
    a local file. *)
Lemma init_is_local self cls path_ details_ os s calls s' fileloc :
  FileLocation.__init__ self cls path_ None details_ os s = (calls, s', Ok fileloc) →
  is_local fileloc.
Proof.
  unfold FileLocation.__init__. simpl.
  rewrite (run_bind_Ok _ _ _ _ _ _ _ (run_exists path_ os s)).
  destruct (stat os path_) as [st|] eqn:Hstat; simpl; [|done].
  unfold_py. rewrite Hstat, run_abspath. simpl.
  intros [= _ _ <-]. split; [done|]. apply abspath_in_not_empty.
Qed.

(** C8.  Handed a repository, the constructor makes no system call,
    whatever the path and the state of the system; the new object holds
    the path as it was given and [None] as its [file_size]. *)
Theorem init_in_repository self cls path_ r details_ os s :
  FileLocation.__init__ self cls path_ (Some r) details_ os s =
    ([], s,
     Ok {| file_base := {| ob_id := self; details := details_ |};
           file_class := cls; repo := Some r;
           path := path_; file_size := None |}).
Proof. unfold FileLocation.__init__, Location.__init__. simpl. reflexivity. Qed.

(** C1.  Handed no repository and a path at which [stat] finds nothing,
    the constructor raises the module's error for a missing file, a
    [ValueError], and the message starts with the path: it is the path
    followed by [" does not exist"].  No object is returned. *)
Theorem init_missing self cls path_ details_ os s :
  stat os path_ = None →
  FileLocation.__init__ self cls path_ None details_ os s =
    ([sys_stat path_], s, Raise (ValueError (path_ +:+ " does not exist")))
  ∧ startswith (path_ +:+ " does not exist") path_ = true.
Proof.
  intros Hstat. split; [|apply startswith_app].
  unfold FileLocation.__init__. simpl.
  rewrite (run_bind_Ok _ _ _ _ _ _ _ (run_exists path_ os s)).
  by rewrite Hstat.
Qed.

(** C7.  Handed no repository and a path at which [stat] finds a file
    of size [st_size st], the constructor returns an object whose
    [file_size] is that size and whose [path] is the absolute form of
    the path, [abspath(path)]; [repo] stays [None]. *)
Theorem init_local self cls path_ details_ os s st :
  stat os path_ = Some st →
  FileLocation.__init__ self cls path_ None details_ os s =
    (sys_stat path_ :: sys_stat path_ ::
       (if posixpath.isabs path_ then [] else [sys_getcwd]), s,
     Ok {| file_base := {| ob_id := self; details := details_ |};
           file_class := cls; repo := None;
           path := posixpath.abspath_in (cwd os) path_;
           file_size := Some (st_size st) |}).
Proof.
  intros Hstat. unfold FileLocation.__init__. simpl.
  rewrite (run_bind_Ok _ _ _ _ _ _ _ (run_exists path_ os s)).
  rewrite Hstat. simpl.
  unfold_py. rewrite Hstat, run_abspath. simpl.
  by rewrite app_nil_r.
Qed.
End FileLocation_init.

(** ** Procedures that keep a relation on the object *)

Section preserves.
Context {S : Type} (R : relation S) `{!Reflexive R, !Transitive R}.

Lemma preserves_ret {A} (a : A) : preserves R (mret a).
Proof. intros os s. reflexivity. Qed.

Lemma preserves_raise {A} e : preserves R (raise (A:=A) e).
Proof. intros os s. reflexivity. Qed.

Lemma preserves_lift {A} (r : result A) : preserves R (lift r).
Proof. intros os s. reflexivity. Qed.

Lemma preserves_get {A} (attr : S → A) : preserves R (get attr).
Proof. intros os s. reflexivity. Qed.

Lemma preserves_set (update : S → S) :
  (∀ s, R s (update s)) → preserves R (set update).
Proof. intros Hupdate os s. apply Hupdate. Qed.

Lemma preserves_relpath path start : preserves R (posixpath.relpath path start).
Proof. intros os s. by rewrite relpath_state. Qed.

Lemma preserves_bind {A B} (m : Py S A) (f : A → Py S B) :
  preserves R m → (∀ a, preserves R (f a)) → preserves R (m ≫= f).
Proof.
  intros Hm Hf os s. specialize (Hm os s). unfold_py.
  destruct (m os s) as [[calls s'] [a|e]]; [|done].
  specialize (Hf a os s').
  destruct (f a os s') as [[calls' s''] r].
  by etrans.
Qed.

Lemma preserves_for_each {A} (l : list A) (body : A → Py S unit) :
  (∀ x, preserves R (body x)) → preserves R (for_each l body).
Proof.
  intros Hbody. induction l as [|x l IH]; simpl.
  - apply preserves_ret.
  - by apply preserves_bind.
Qed.
End preserves.

(** ** Repository._update_in_repos *)

#[global] Instance same_frame_refl : Reflexive same_frame.
Proof. by intros fileloc. Qed.

#[global] Instance same_frame_trans : Transitive same_frame.
Proof.
  intros f1 f2 f3 (?&?&?) (?&?&?). unfold same_frame. intuition congruence.
Qed.

Section update_in_repos.
Implicit Types (fileloc : file_location) (repos : list repository) (os : OS).

Lemma try_repo_frame orig_path r : preserves same_frame (Repository.try_repo orig_path r).
Proof.
  unfold Repository.try_repo.
  apply preserves_bind; [tc_solve..|apply preserves_lift; tc_solve|intros root].
  apply preserves_bind; [tc_solve..|apply preserves_relpath; tc_solve|intros relpath].
  destruct (negb _); [|apply preserves_ret; tc_solve].
  apply preserves_bind; [tc_solve..|apply preserves_get; tc_solve|intros fileloc_repo].
  apply preserves_bind; [tc_solve..|apply preserves_get; tc_solve|intros fileloc_path].
  destruct (_ || _); [|apply preserves_ret; tc_solve].
  apply preserves_bind; [tc_solve..| |intros _]; by apply preserves_set.
Qed.

Lemma update_in_repos_frame repos : preserves same_frame (Repository._update_in_repos_body repos).
Proof.
  unfold Repository._update_in_repos_body.
  apply preserves_bind; [tc_solve..|apply preserves_get; tc_solve|intros fileloc_repo].
  destruct (truthy _); [apply preserves_ret; tc_solve|].
  apply preserves_bind; [tc_solve..|apply preserves_get; tc_solve|intros orig_path].
  apply preserves_for_each; [tc_solve..|]. intros r. apply try_repo_frame.
Qed.

(** C10.  Whatever the location and the repositories, and however the
    call ends (a repository matched or none did, it returned or it
    raised), the object keeps its [details], its [file_size] and its
    [content_type] (an attribute of its class, which it keeps); so does
    its identity. *)
Theorem update_in_repos_keeps_other_attributes fileloc repos os :
  let fileloc' := state_of (Repository._update_in_repos fileloc repos os) in
  details fileloc' = details fileloc
  ∧ file_size fileloc' = file_size fileloc
  ∧ Cls.content_type (file_class fileloc') = Cls.content_type (file_class fileloc)
  ∧ ob_id fileloc' = ob_id fileloc.
Proof.
  intros fileloc'.
  destruct (update_in_repos_frame repos os fileloc) as (Hbase & Hclass & Hsize).
  fold (Repository._update_in_repos fileloc repos os) in Hbase, Hclass, Hsize.
  fold fileloc' in Hbase, Hclass, Hsize.
  by rewrite Hbase, Hclass, Hsize.
Qed.

(** C5.  A location whose [repo] is set is left as it is by every call,
    which returns at once: no attribute changes, nothing is raised, no
    system call is made.  Hence a second call, with whatever
    repositories, finds the location as the first one left it and
    leaves it so: a bound location is neither rebound nor unbound. *)
Theorem update_in_repos_bound fileloc r :
  repo fileloc = Some r →
  (∀ repos os,
     Repository._update_in_repos fileloc repos os = ([], fileloc, Ok tt))
  ∧ (∀ repos os repos' os',
       let fileloc' := state_of (Repository._update_in_repos fileloc repos os) in
       state_of (Repository._update_in_repos fileloc' repos' os') = fileloc
       ∧ repo fileloc' = Some r ∧ path fileloc' = path fileloc).
Proof.
  intros Hrepo.
  assert (∀ repos os,
    Repository._update_in_repos fileloc repos os = ([], fileloc, Ok tt)) as Hcall.
  { intros repos os.
    unfold Repository._update_in_repos, Repository._update_in_repos_body.
    unfold_py. by rewrite Hrepo. }
  split; [done|].
  intros repos os repos' os'. simpl.
  by rewrite !Hcall.
Qed.
End update_in_repos.

(** *** The repository a local file is bound to *)

Section shortest.
Implicit Types (fileloc : file_location) (repos : list repository) (os : OS).
Implicit Types (cands : list (repository * string)).

Lemma elem_of_matches os orig_path repos r relpath :
  (r, relpath) ∈ matches os orig_path repos ↔
  r ∈ repos ∧ ∃ root, _root r = Some root
              ∧ relpath = relative_to os orig_path root
              ∧ startswith relpath ".." = false.
Proof.
  unfold matches. rewrite list_elem_of_omap. split.
  - intros (r' & Hin & Hmatch). unfold match_of in Hmatch.
    destruct (_root r') as [root|] eqn:Hroot; simpl in Hmatch; [|done].
    destruct (startswith _ _) eqn:Hstart; [done|].
    injection Hmatch as -> <-. eauto.
  - intros (Hin & root & Hroot & -> & Hstart).
    exists r. split; [done|]. unfold match_of. rewrite Hroot. simpl.
    by rewrite Hstart.
Qed.

(** The winner is unique. *)
Lemma shortest_first_seen_unique cands i c i' c' :
  shortest_first_seen cands i c → shortest_first_seen cands i' c' →
  i = i' ∧ c = c'.
Proof.
  intros (Hi & Hall & Hbefore) (Hi' & Hall' & Hbefore').
  assert (i = i') as <-.
  { destruct (Nat.lt_trichotomy i i') as [Hlt|[->|Hlt]]; [|done|].
    - specialize (Hbefore' _ _ Hlt Hi). specialize (Hall _ _ Hi'). lia.
    - specialize (Hbefore _ _ Hlt Hi'). specialize (Hall' _ _ Hi). lia. }
  split; [done|congruence].
Qed.

Lemma run_try_repo os orig_path fileloc r :
  orig_path ≠ "" → is_Some (_root r) →
  ∃ calls, Repository.try_repo orig_path r os fileloc =
             (calls, round os orig_path fileloc r, Ok tt).
Proof.
  intros Hpath [root Hroot].
  unfold Repository.try_repo, Repository.get__root, round, match_of.
  rewrite Hroot. simpl.
  rewrite (run_bind_Ok _ _ _ _ [] fileloc root) by done.
  rewrite (run_bind_Ok _ _ _ _ _ _ _ (run_relpath orig_path root os fileloc Hpath)).
  fold (relative_to os orig_path root).
  destruct (startswith (relative_to os orig_path root) "..") eqn:Hstart; simpl;
    [by eexists|].
  unfold_py. simpl.
  destruct (is_None (repo fileloc) || _); simpl; by eexists.
Qed.

Lemma run_for_each_try_repo os orig_path repos fileloc :
  orig_path ≠ "" → Forall (λ r, is_Some (_root r)) repos →
  ∃ calls, for_each repos (Repository.try_repo orig_path) os fileloc =
             (calls, foldl (round os orig_path) fileloc repos, Ok tt).
Proof.
  intros Hpath Hroots. revert fileloc.
  induction Hroots as [|r repos Hroot _ IH]; intros fileloc; simpl.
  - by eexists.
  - destruct (run_try_repo os orig_path fileloc r Hpath Hroot) as [calls Hrun].
    destruct (IH (round os orig_path fileloc r)) as [calls' Hrun'].
    rewrite (run_bind_Ok _ _ _ _ _ _ _ Hrun), Hrun'. by eexists.
Qed.

Lemma shortest_first_seen_singleton c : shortest_first_seen [c] 0 c.
Proof.
  split; [done|]. split.
  - intros [|j] c' Hj; simpl in Hj; [|done]. by injection Hj as <-.
  - intros j c' Hj. lia.
Qed.

Lemma shortest_first_seen_keep cands i c c' :
  shortest_first_seen cands i c → (len c.2 ≤ len c'.2)%nat →
  shortest_first_seen (cands ++ [c']) i c.
Proof.
  intros (Hi & Hall & Hbefore) Hlen.
  pose proof (lookup_lt_Some _ _ _ Hi) as Hlt.
  split; [by rewrite lookup_app_l|]. split.
  - intros j c'' Hj. apply lookup_app_Some in Hj as [Hj|[_ Hj]]; [by eapply Hall|].
    apply list_lookup_singleton_Some in Hj as [_ <-]. done.
  - intros j c'' Hji Hj. rewrite lookup_app_l in Hj by lia. by eapply Hbefore.
Qed.

Lemma shortest_first_seen_replace cands i c c' :
  shortest_first_seen cands i c → (len c'.2 < len c.2)%nat →
  shortest_first_seen (cands ++ [c']) (length cands) c'.
Proof.
  intros (Hi & Hall & Hbefore) Hlen.
  split; [by rewrite lookup_app_r, Nat.sub_diag|]. split.
  - intros j c'' Hj. apply lookup_app_Some in Hj as [Hj|[_ Hj]].
    + specialize (Hall _ _ Hj). lia.
    + apply list_lookup_singleton_Some in Hj as [_ <-]. done.
  - intros j c'' Hji Hj. rewrite lookup_app_l in Hj by lia.
    specialize (Hall _ _ Hj). lia.
Qed.

Lemma foldl_round_chosen os fileloc repos :
  repo fileloc = None →
  chosen fileloc (matches os (path fileloc) repos)
    (foldl (round os (path fileloc)) fileloc repos).
Proof.
  intros Hrepo. induction repos as [|r repos IH] using rev_ind.
  - by apply chosen_none.
  - rewrite foldl_app. simpl. unfold matches in *. rewrite omap_app. simpl.
    unfold round at 1.
    destruct (match_of os (path fileloc) r) as [[r' relpath]|] eqn:Hmatch; simpl.
    + assert (r' = r) as ->.
      { unfold match_of in Hmatch. destruct (_root r); simpl in Hmatch; [|done].
        destruct (startswith _ _); [done|]. by injection Hmatch. }
      destruct IH as [Hnone|i r0 relpath0 Hshortest].
      * rewrite Hnone, Hrepo. simpl.
        eapply chosen_some, shortest_first_seen_singleton.
      * simpl. case_bool_decide as Hlen.
        -- replace (bind_to r relpath (bind_to r0 relpath0 fileloc))
             with (bind_to r relpath fileloc) by done.
           eapply chosen_some.
           by apply (shortest_first_seen_replace _ i (r0, relpath0)).
        -- eapply chosen_some.
           apply shortest_first_seen_keep; [done|]. simpl in *. lia.
    + by rewrite app_nil_r.
Qed.
End shortest.

(** *** The calls of _update_in_repos on a local file *)

Section update_local.
Implicit Types (fileloc : file_location) (repos : list repository) (os : OS).

Lemma run_update_in_repos_local fileloc repos os :
  is_local fileloc → Forall (λ r, is_Some (_root r)) repos →
  ∃ calls, Repository._update_in_repos fileloc repos os =
             (calls, foldl (round os (path fileloc)) fileloc repos, Ok tt).
Proof.
  intros [Hrepo Hpath] Hroots.
  destruct (run_for_each_try_repo os (path fileloc) repos fileloc Hpath Hroots)
    as [calls Hrun].
  exists calls.
  unfold Repository._update_in_repos, Repository._update_in_repos_body.
  rewrite (run_bind_Ok _ _ _ _ [] fileloc (repo fileloc)) by done.
  rewrite Hrepo. simpl.
  rewrite (run_bind_Ok _ _ _ _ [] fileloc (path fileloc)) by done.
  by rewrite Hrun.
Qed.

(** The loop raises at the first repository without a root, after the
    rounds for the repositories before it. *)
Lemma run_for_each_unrooted os orig_path repos r repos' fileloc :
  orig_path ≠ "" → Forall (λ r, is_Some (_root r)) repos → _root r = None →
  ∃ calls, for_each (repos ++ r :: repos') (Repository.try_repo orig_path) os fileloc =
             (calls, foldl (round os orig_path) fileloc repos,
              Raise (no_attribute "Repository" "_root")).
Proof.
  intros Hpath Hroots Hroot. revert fileloc.
  induction Hroots as [|r0 repos Hroot0 _ IH]; intros fileloc; simpl.
  - unfold Repository.try_repo, Repository.get__root. rewrite Hroot.
    unfold_py. by eexists.
  - destruct (run_try_repo os orig_path fileloc r0 Hpath Hroot0) as [calls Hrun].
    rewrite (run_bind_Ok _ _ _ _ _ _ _ Hrun).
    destruct (IH (round os orig_path fileloc r0)) as [calls' ->].
    by eexists.
Qed.

Lemma run_update_in_repos_unrooted fileloc repos r repos' os :
  is_local fileloc → Forall (λ r, is_Some (_root r)) repos → _root r = None →
  ∃ calls, Repository._update_in_repos fileloc (repos ++ r :: repos') os =
             (calls, foldl (round os (path fileloc)) fileloc repos,
              Raise (no_attribute "Repository" "_root")).
Proof.
  intros [Hrepo Hpath] Hroots Hroot.
  destruct (run_for_each_unrooted os (path fileloc) repos r repos' fileloc
              Hpath Hroots Hroot) as [calls Hrun].
  exists calls.
  unfold Repository._update_in_repos, Repository._update_in_repos_body.
  rewrite (run_bind_Ok _ _ _ _ [] fileloc (repo fileloc)) by done.
  rewrite Hrepo. simpl.
  rewrite (run_bind_Ok _ _ _ _ [] fileloc (path fileloc)) by done.
  by rewrite Hrun.
Qed.

(** C4.  For a local file and repositories that all have a root: the
    matches are the repositories relative to whose root the file's path
    does not start with [".."]; the call returns; with no match the
    location is left as it was, and otherwise it is bound, [repo] and
    [path], to the match with the shortest relative path, the first seen
    of them when several are as short. *)
Theorem update_in_repos_binds_shortest fileloc repos os :
  is_local fileloc → Forall (λ r, is_Some (_root r)) repos →
  (∀ r relpath,
     (r, relpath) ∈ matches os (path fileloc) repos ↔
     r ∈ repos ∧ ∃ root, _root r = Some root
                 ∧ relpath = relative_to os (path fileloc) root
                 ∧ startswith relpath ".." = false)
  ∧ result_of (Repository._update_in_repos fileloc repos os) = Ok tt
  ∧ (matches os (path fileloc) repos = []
     ∧ state_of (Repository._update_in_repos fileloc repos os) = fileloc
     ∨ ∃ i r relpath,
         shortest_first_seen (matches os (path fileloc) repos) i (r, relpath)
         ∧ state_of (Repository._update_in_repos fileloc repos os)
           = bind_to r relpath fileloc).
Proof.
  intros Hlocal Hroots.
  split; [intros r relpath; apply elem_of_matches|].
  destruct (run_update_in_repos_local fileloc repos os Hlocal Hroots) as [calls ->].
  split; [done|]. simpl.
  destruct (foldl_round_chosen os fileloc repos (proj1 Hlocal))
    as [Hnone|i r relpath Hshortest]; [by left|right; eauto].
Qed.
End update_local.

(** ** Equality of repositories *)

Lemma Repository_eq_Ok (a b : repository) :
  Repository.__eq__ a (v_Repository b) =
    Ok (bool_decide (doi a = doi b ∧ url a = url b)).
Proof.
  unfold Repository.__eq__. f_equal.
  destruct (decide (doi a = doi b)) as [Hdoi|Hdoi],
    (decide (url a = url b)) as [Hurl|Hurl].
  - by rewrite !bool_decide_eq_true_2.
  - rewrite (bool_decide_eq_false_2 (url a = url b)) by done.
    rewrite andb_false_r. symmetry. apply bool_decide_eq_false_2. tauto.
  - rewrite (bool_decide_eq_false_2 (doi a = doi b)) by done.
    symmetry. apply bool_decide_eq_false_2. tauto.
  - rewrite (bool_decide_eq_false_2 (doi a = doi b)) by done.
    symmetry. apply bool_decide_eq_false_2. tauto.
Qed.

Lemma Repository_eq_true (a b : repository) :
  Repository.__eq__ a (v_Repository b) = Ok true ↔ doi a = doi b ∧ url a = url b.
Proof.
  rewrite Repository_eq_Ok. split.
  - intros [= Heq]. by apply bool_decide_eq_true in Heq.
  - intros Heq. by rewrite bool_decide_eq_true_2.
Qed.

(** C9.  On two repositories [__eq__] returns, and returns true iff the
    two have the same [doi] and the same [url]; [_root] and
    [top_directory] are not looked at, so that a repository equals every
    repository that differs from it in these two only. *)
Theorem Repository_eq_doi_url (a b : repository) :
  (Repository.__eq__ a (v_Repository b) = Ok true ↔ doi a = doi b ∧ url a = url b)
  ∧ (Repository.__eq__ a (v_Repository b) = Ok false ↔ ¬ (doi a = doi b ∧ url a = url b))
  ∧ (∀ root top_dir,
       Repository.__eq__ a
         (v_Repository {| doi := doi a; url := url a;
                          top_directory := top_dir; _root := root |}) = Ok true).
Proof.
  split; [apply Repository_eq_true|]. split.
  - rewrite Repository_eq_Ok. split.
    + intros [= Heq]. by apply bool_decide_eq_false in Heq.
    + intros Hne. by rewrite bool_decide_eq_false_2.
  - intros root top_dir. by apply Repository_eq_true.
Qed.

(** ** Equality of locations *)

Section equality.
Implicit Types (a b self : location) (v w : value) (key : string).

Lemma same_value_refl v : same_value v v.
Proof. by destruct v. Qed.

Lemma value_eq_true v w : value_eq v w = Ok true ↔ same_value v w.
Proof.
  destruct v, w; simpl; try (split; (done || by intros [= ?])).
  - split; [intros [= ?%bool_decide_eq_true]; congruence|].
    intros [= ->]. by rewrite bool_decide_eq_true_2.
  - split; [intros [= ?%bool_decide_eq_true]; congruence|].
    intros [= ->]. by rewrite bool_decide_eq_true_2.
  - split; [intros [= ?%bool_decide_eq_true]; congruence|].
    intros [= ->]. by rewrite bool_decide_eq_true_2.
  - apply Repository_eq_true.
Qed.

Lemma tuple_eq_true (vs ws : list value) :
  tuple_eq vs ws = Ok true ↔ Forall2 same_value vs ws.
Proof.
  revert ws. induction vs as [|v vs IH]; intros [|w ws]; simpl.
  - split; [constructor|done].
  - split; [done|intros H; inversion H].
  - split; [done|intros H; inversion H].
  - rewrite Forall2_cons, <- IH, <- value_eq_true.
    destruct (value_eq v w) as [[]|e]; simpl.
    + tauto.
    + split; [done|]. by intros [? _].
    + split; [done|]. by intros [? _].
Qed.

(** A comprehension returns iff each call does, and then member by
    member. *)
Lemma comprehension_Ok {A B} (f : A → result B) (l : list A) (ys : list B) :
  comprehension f l = Ok ys ↔ Forall2 (λ x y, f x = Ok y) l ys.
Proof.
  revert ys. induction l as [|x l IH]; intros ys; simpl.
  - split; [by intros [= <-]; constructor|by intros ->%Forall2_nil_inv_l].
  - destruct (f x) as [y|e] eqn:Hx; simpl.
    + destruct (comprehension f l) as [ys'|e] eqn:Hl; simpl.
      * split.
        -- intros [= <-]. constructor; [done|]. by apply IH.
        -- intros (y' & ys'' & Hy & Hys & ->)%Forall2_cons_inv_l.
           apply IH in Hys. congruence.
      * split; [done|].
        intros (y' & ys'' & Hy & Hys & ->)%Forall2_cons_inv_l.
        by apply IH in Hys.
    + split; [done|].
      intros (y' & ys'' & Hy & Hys & ->)%Forall2_cons_inv_l. congruence.
Qed.

(** Member by member against key by key. *)
Lemma Forall2_by_key {A B} (f g : A → result B) (R : relation B) l ys zs :
  Forall2 (λ x y, f x = Ok y) l ys → Forall2 (λ x z, g x = Ok z) l zs →
  Forall2 R ys zs ↔ ∀ x, x ∈ l → ∃ y z, f x = Ok y ∧ g x = Ok z ∧ R y z.
Proof.
  intros Hys. revert zs. induction Hys as [|x y l ys Hy Hys IH]; intros zs Hzs.
  - apply Forall2_nil_inv_l in Hzs as ->. split; [|constructor].
    intros _ x Hx. by apply elem_of_nil in Hx.
  - apply Forall2_cons_inv_l in Hzs as (z & zs' & Hz & Hzs & ->).
    rewrite Forall2_cons, (IH _ Hzs). split.
    + intros [HR Hall] x' [->|Hx']%elem_of_cons; eauto.
    + intros Hall. split.
      * destruct (Hall x) as (y' & z' & Hy' & Hz' & HR); [left|]. congruence.
      * intros x' Hx'. apply Hall. by right.
Qed.

(** Every key of [_eq_keys] names an attribute the instance has. *)
Lemma getattr_eq_key self key :
  key ∈ Cls._eq_keys (Location.__class__ self) →
  ∃ v, Location.getattr self key = Ok v.
Proof.
  destruct self as [o|o|o]; simpl; intros Hkey.
  - by apply elem_of_nil in Hkey.
  - repeat (apply elem_of_cons in Hkey as [->|Hkey]; [by eexists|]).
    by apply elem_of_nil in Hkey.
  - repeat (apply elem_of_cons in Hkey as [->|Hkey]; [by eexists|]).
    by apply elem_of_nil in Hkey.
Qed.

(** [_eq_vals] returns the tuple of the class and of the attributes of
    [_eq_keys]. *)
Lemma eq_vals_tuple self :
  ∃ vals,
    Forall2 (λ key v, Location.getattr self key = Ok v)
      (Cls._eq_keys (Location.__class__ self)) vals
    ∧ Location._eq_vals self = Ok (a_tuple (v_class (Location.__class__ self) :: vals)).
Proof.
  assert (∃ vals, comprehension (Location.getattr self)
                    (Cls._eq_keys (Location.__class__ self)) = Ok vals) as [vals Hvals].
  { pose proof (getattr_eq_key self) as Hkeys.
    induction (Cls._eq_keys (Location.__class__ self)) as [|key keys IH]; simpl.
    - by eexists.
    - destruct (Hkeys key) as [v ->]; [left|].
      destruct IH as [vals ->]; [intros key' Hkey'; apply Hkeys; by right|].
      by eexists. }
  exists vals. split; [by apply comprehension_Ok|].
  unfold Location._eq_vals. simpl. by rewrite Hvals.
Qed.

(** What [__eq__] computes on two locations. *)
Lemma eq_locations a b :
  ∃ vs ws,
    Forall2 (λ key v, Location.getattr a key = Ok v)
      (Cls._eq_keys (Location.__class__ a)) vs
    ∧ Forall2 (λ key w, Location.getattr b key = Ok w)
        (Cls._eq_keys (Location.__class__ b)) ws
    ∧ Location.__eq__ a (o_Location b) =
        tuple_eq (v_class (Location.__class__ a) :: vs)
          (v_class (Location.__class__ b) :: ws).
Proof.
  destruct (eq_vals_tuple a) as (vs & Hvs & Ha), (eq_vals_tuple b) as (ws & Hws & Hb).
  exists vs, ws. repeat split; [done..|].
  unfold Location.__eq__. simpl. by rewrite Ha, Hb.
Qed.

Lemma eq_true_iff a b :
  Location.__eq__ a (o_Location b) = Ok true ↔
  Location.__class__ a = Location.__class__ b
  ∧ ∀ key, key ∈ Cls._eq_keys (Location.__class__ a) →
      ∃ v w, Location.getattr a key = Ok v ∧ Location.getattr b key = Ok w
             ∧ same_value v w.
Proof.
  destruct (eq_locations a b) as (vs & ws & Hvs & Hws & ->).
  rewrite tuple_eq_true, Forall2_cons. simpl. split.
  - intros [[= Hclass] Hvals]. split; [done|].
    rewrite <- Hclass in Hws. by apply (Forall2_by_key _ _ _ _ _ _ Hvs Hws).
  - intros [Hclass Hkeys]. split; [by rewrite Hclass|].
    rewrite <- Hclass in Hws. by apply (Forall2_by_key _ _ _ _ _ _ Hvs Hws).
Qed.

Lemma eq_other_class a b :
  Location.__class__ a ≠ Location.__class__ b →
  Location.__eq__ a (o_Location b) = Ok false.
Proof.
  intros Hclass. destruct (eq_locations a b) as (vs & ws & _ & _ & ->).
  simpl. by rewrite bool_decide_eq_false_2.
Qed.

Lemma eq_with_base a base' :
  Location.__eq__ a (o_Location (with_base base' a)) = Ok true.
Proof.
  apply eq_true_iff. split; [by destruct a|].
  intros key Hkey. destruct (getattr_eq_key a key Hkey) as [v Hv].
  exists v, v. split; [done|]. split; [|apply same_value_refl].
  rewrite <- Hv. destruct a as [o|o|o]; simpl in Hkey.
  - by apply elem_of_nil in Hkey.
  - repeat (apply elem_of_cons in Hkey as [->|Hkey]; [done|]).
    by apply elem_of_nil in Hkey.
  - repeat (apply elem_of_cons in Hkey as [->|Hkey]; [done|]).
    by apply elem_of_nil in Hkey.
Qed.

(** [__eq__] of two locations is symmetric, exceptions included: [a == b]
    gives the same whether Python runs [a.__eq__(b)] or, [b] being of a
    proper subclass of the class of [a], [b.__eq__(a)]. *)
Lemma value_eq_sym v w : value_eq v w = value_eq w v.
Proof.
  destruct v, w; simpl; try done; f_equal; try (apply bool_decide_ext; naive_solver).
  f_equal; apply bool_decide_ext; naive_solver.
Qed.

Lemma tuple_eq_sym (vs ws : list value) : tuple_eq vs ws = tuple_eq ws vs.
Proof.
  revert ws. induction vs as [|v vs IH]; intros [|w ws]; simpl; try done.
  rewrite (value_eq_sym v w), (IH ws). done.
Qed.

Lemma eq_locations_sym a b :
  Location.__eq__ a (o_Location b) = Location.__eq__ b (o_Location a).
Proof.
  destruct (eq_vals_tuple a) as (vs & _ & Ha), (eq_vals_tuple b) as (ws & _ & Hb).
  unfold Location.__eq__. simpl. rewrite Ha, Hb.
  exact (tuple_eq_sym (v_class (Location.__class__ a) :: vs)
           (v_class (Location.__class__ b) :: ws)).
Qed.

Lemma eq_unrelated self other :
  (∀ l, other ≠ o_Location l) →
  Location.__eq__ self other = Raise (no_attribute (type_name other) "_eq_vals").
Proof.
  intros Hother. destruct (eq_vals_tuple self) as (vals & _ & Hself).
  unfold Location.__eq__. rewrite Hself. simpl.
  destruct other as [| | | |l]; try done. by destruct (Hother l).
Qed.

(** C6.  Two locations compare equal iff they are of the same class
    and hold equal values in every attribute that [_eq_keys] of the
    class lists.  In particular a location equals every location that
    differs from it in [details] (and in identity) only, and two
    locations of different classes compare unequal, whatever their
    attributes hold.  This is so for the locations of every class: none
    sets [_allow_duplicates]. *)
Theorem Location_eq_class_and_keys a b :
  (Location.__eq__ a (o_Location b) = Ok true ↔
     Location.__class__ a = Location.__class__ b
     ∧ ∀ key, key ∈ Cls._eq_keys (Location.__class__ a) →
         ∃ v w, Location.getattr a key = Ok v ∧ Location.getattr b key = Ok w
                ∧ same_value v w)
  ∧ (∀ base', Location.__eq__ a (o_Location (with_base base' a)) = Ok true)
  ∧ (Location.__class__ a ≠ Location.__class__ b →
     Location.__eq__ a (o_Location b) = Ok false)
  ∧ (∀ c, Cls._allow_duplicates c = false).
Proof.
  split; [apply eq_true_iff|].
  split; [apply eq_with_base|].
  split; [apply eq_other_class|done].
Qed.

(** C3, as the code has it.  Compared with an object that is not a
    location ([None], a string, an integer, a repository), a location
    raises [AttributeError]: the object is asked for [_eq_vals], which
    it does not have.  Compared with a location of another class it
    returns, and the two are not equal. *)
Theorem Location_eq_other_type self other :
  ((∀ l, other ≠ o_Location l) →
   Location.__eq__ self other = Raise (no_attribute (type_name other) "_eq_vals"))
  ∧ (∀ l, Location.__class__ self ≠ Location.__class__ l →
          Location.__eq__ self (o_Location l) = Ok false).
Proof.
  split; [apply eq_unrelated|]. intros l. apply eq_other_class.
Qed.
End equality.

(** Two optional strings always compare. *)
Lemma value_eq_optional_str (x y : option string) :
  ∃ k, value_eq (optional_str x) (optional_str y) = Ok k.
Proof. destruct x, y; simpl; by eexists. Qed.

(** When the comparison of two locations raises: they are two file
    locations of one class, one in a repository and one local, so that a
    repository is compared with [None]. *)
Lemma eq_locations_raises (a b : location) (e : exception) :
  Location.__eq__ a (o_Location b) = Raise e ↔
  ∃ fa fb, a = a_FileLocation fa ∧ b = a_FileLocation fb
           ∧ file_class fa = file_class fb
           ∧ truthy (repo fa) ≠ truthy (repo fb)
           ∧ e = no_attribute "NoneType" "doi".
Proof.
  split.
  - destruct a as [oa|oa|fa], b as [ob|ob|fb]; unfold Location.__eq__; simpl;
      try done; try (by case_bool_decide).
    + destruct (value_eq_optional_str (version oa) (version ob)) as [k ->]. simpl.
      by repeat (case_bool_decide; try done); destruct k.
    + destruct (value_eq_optional_str (Cls.content_type (file_class fa))
                  (Cls.content_type (file_class fb))) as [k ->]. simpl.
      case_bool_decide as Hclass; simpl; [|done].
      destruct (repo fa) as [ra|] eqn:Hra, (repo fb) as [rb|] eqn:Hrb; simpl.
      * by repeat (case_bool_decide; simpl; try done); destruct k.
      * intros [= <-]. exists fa, fb. rewrite Hra, Hrb. split_and!; try done. congruence.
      * intros [= <-]. exists fa, fb. rewrite Hra, Hrb. split_and!; try done. congruence.
      * by repeat (case_bool_decide; simpl; try done); destruct k.
  - intros (fa & fb & -> & -> & Hclass & Hrepo & ->).
    unfold Location.__eq__. simpl. rewrite Hclass.
    rewrite bool_decide_eq_true_2 by done. simpl.
    by destruct (repo fa), (repo fb).
Qed.

(** ** The program at the example *)

Module posixpath_examples.
Import posixpath.

Example normpath_dots : normpath "/data//proj/./sub/../file.txt" = "/data/proj/file.txt".
Proof. reflexivity. Qed.

Example normpath_two_slashes : normpath "//data/" = "//data".
Proof. reflexivity. Qed.

Example normpath_relative_up : normpath "a/../../b" = "../b".
Proof. reflexivity. Qed.

Example abspath_relative : abspath_in "/home/user" "work/file.txt" = "/home/user/work/file.txt".
Proof. reflexivity. Qed.

Example relpath_inside : relpath_of "/data/proj/sub/file.txt" "/data/proj" = "sub/file.txt".
Proof. reflexivity. Qed.

Example relpath_outside : relpath_of "/data/other/file.txt" "/data/proj" = "../other/file.txt".
Proof. reflexivity. Qed.

Example relpath_same : relpath_of "/data/proj" "/data/proj" = ".".
Proof. reflexivity. Qed.
End posixpath_examples.

Module example_runs.
Import example.

(** The objects of the example are what the constructors return. *)
Example file_init :
  FileLocation.__init__ 1 Cls.InputFileLocation "sub/file.txt" None None os tt =
    ([sys_stat "sub/file.txt"; sys_stat "sub/file.txt"; sys_getcwd], tt, Ok file).
Proof. reflexivity. Qed.

Example proj_init :
  Repository.__init__ "10.5281/zenodo.46266" (Some ".") None None os tt =
    ([sys_getcwd], tt, Ok proj).
Proof. reflexivity. Qed.

Example sub_init :
  Repository.__init__ "10.5281/zenodo.820724" (Some "/data/proj/sub/") None None os tt =
    ([], tt, Ok sub).
Proof. reflexivity. Qed.

Example unrooted_init :
  Repository.__init__ "10.5281/zenodo.46266" None
    (Some "https://zenodo.org/record/46266/files/nup84.zip") (Some "nup84-v1.0") os tt =
    ([], tt, Ok unrooted).
Proof. reflexivity. Qed.

(** The derived properties of a repository. *)
Example unrooted_provider : Repository.reference_provider unrooted = Some "Zenodo".
Proof. reflexivity. Qed.

Example unrooted_refers_to : Repository.refers_to unrooted = "Archive".
Proof. reflexivity. Qed.

Example proj_refers_to : Repository.refers_to proj = "Other".
Proof. reflexivity. Qed.

Example unrooted_full_path :
  Repository._get_full_path unrooted "sub/file.txt" = "nup84-v1.0/sub/file.txt".
Proof. reflexivity. Qed.

(** The deeper root wins, in either order; a root elsewhere does not
    match. *)
Example update_proj_sub :
  Repository._update_in_repos file [proj; elsewhere; sub] os =
    ([], bind_to sub "file.txt" file, Ok tt).
Proof. reflexivity. Qed.

Example update_sub_proj :
  Repository._update_in_repos file [sub; proj] os =
    ([], bind_to sub "file.txt" file, Ok tt).
Proof. reflexivity. Qed.

Example update_elsewhere :
  Repository._update_in_repos file [elsewhere] os = ([], file, Ok tt).
Proof. reflexivity. Qed.

(** Of two repositories that give relative paths of one length, the
    first wins. *)
Example update_tie :
  Repository._update_in_repos file [proj; mirror] os =
    ([], bind_to proj "sub/file.txt" file, Ok tt).
Proof. reflexivity. Qed.

Example update_tie_swapped :
  Repository._update_in_repos file [mirror; proj] os =
    ([], bind_to mirror "sub/file.txt" file, Ok tt).
Proof. reflexivity. Qed.

(** A file in a repository and the same file on the local disk do not
    compare: the repository is compared with [None]. *)
Example bound_with_local :
  Location.__eq__ (a_FileLocation bound_file) (o_Location (a_FileLocation file)) =
    Raise (AttributeError "'NoneType' object has no attribute 'doi'").
Proof. reflexivity. Qed.
End example_runs.

(** ** A repository without a root *)

(** C2, where the code departs from it.  A repository constructed with no
    root has no [_root] attribute, and [_update_in_repos] reads
    [repo._root] of every repository it visits: on the local file of the
    example and a sequence holding the repository without a root the call
    raises [AttributeError]; it does not return.  After a repository
    that matched, the exception leaves the location bound to that
    repository. *)
Theorem update_in_repos_unrooted_raises :
  Repository.__init__ "10.5281/zenodo.46266" None
    (Some "https://zenodo.org/record/46266/files/nup84.zip") (Some "nup84-v1.0")
    example.os tt = ([], tt, Ok example.unrooted)
  ∧ Repository._update_in_repos example.file [example.unrooted] example.os =
      ([], example.file,
       Raise (AttributeError "'Repository' object has no attribute '_root'"))
  ∧ Repository._update_in_repos example.file [example.proj; example.unrooted] example.os =
      ([], bind_to example.proj "sub/file.txt" example.file,
       Raise (AttributeError "'Repository' object has no attribute '_root'")).
Proof.
  split; [reflexivity|].
  unfold Repository._update_in_repos, Repository._update_in_repos_body.
  split; reflexivity.
Qed.

(** ** An object that is not a location *)

(** C3 fails on a location compared with the integer 5: the comparison
    raises and returns nothing. *)
Lemma Location_eq_int_raises :
  Location.__eq__ example.pdb (o_int 5) =
    Raise (AttributeError "'int' object has no attribute '_eq_vals'")
  ∧ Location.__eq__ example.pdb (o_int 5) ≠ Ok false.
Proof. split; [reflexivity|discriminate]. Qed.

(** ** The theorems at the example *)

Lemma init_missing_witness :
  stat example.os "missing.txt" = None
  ∧ FileLocation.__init__ 1 Cls.FileLocation "missing.txt" None None example.os tt =
      ([sys_stat "missing.txt"], tt, Raise (ValueError "missing.txt does not exist"))
  ∧ startswith "missing.txt does not exist" "missing.txt" = true.
Proof.
  split; [reflexivity|].
  apply (init_missing 1 Cls.FileLocation "missing.txt" None example.os tt).
  reflexivity.
Defined.

Lemma init_local_witness :
  stat example.os "sub/file.txt" = Some {| st_size := 42 |}
  ∧ FileLocation.__init__ 1 Cls.InputFileLocation "sub/file.txt" None None example.os tt =
      ([sys_stat "sub/file.txt"; sys_stat "sub/file.txt"; sys_getcwd], tt,
       Ok example.file).
Proof.
  split; [reflexivity|].
  apply (init_local 1 Cls.InputFileLocation "sub/file.txt" None example.os tt
           {| st_size := 42 |}).
  reflexivity.
Defined.

Lemma update_in_repos_bound_witness :
  repo example.bound_file = Some example.sub
  ∧ (∀ repos os,
       Repository._update_in_repos example.bound_file repos os =
         ([], example.bound_file, Ok tt)).
Proof.
  split; [reflexivity|].
  apply (update_in_repos_bound example.bound_file example.sub).
  reflexivity.
Defined.

Lemma update_in_repos_binds_shortest_witness :
  is_local example.file
  ∧ Forall (λ r, is_Some (_root r)) [example.proj; example.elsewhere; example.sub]
  ∧ result_of (Repository._update_in_repos example.file
                 [example.proj; example.elsewhere; example.sub] example.os) = Ok tt.
Proof.
  assert (is_local example.file) as Hlocal by (split; [reflexivity|discriminate]).
  assert (Forall (λ r, is_Some (_root r)) [example.proj; example.elsewhere; example.sub])
    as Hroots by (repeat constructor; simpl; eauto).
  split; [exact Hlocal|]. split; [exact Hroots|].
  exact (proj1 (proj2 (update_in_repos_binds_shortest example.file
                         [example.proj; example.elsewhere; example.sub] example.os
                         Hlocal Hroots))).
Defined.

Lemma Location_eq_class_and_keys_witness :
  Location.__class__ example.pdb ≠ Location.__class__ example.emdb
  ∧ Location.__eq__ example.pdb (o_Location example.emdb) = Ok false.
Proof.
  assert (Location.__class__ example.pdb ≠ Location.__class__ example.emdb)
    as Hclass by discriminate.
  split; [exact Hclass|].
  exact (proj1 (proj2 (proj2 (Location_eq_class_and_keys example.pdb example.emdb)))
           Hclass).
Defined.

Lemma Location_eq_other_type_witness :
  (∀ l, o_int 5 ≠ o_Location l)
  ∧ Location.__eq__ example.pdb (o_int 5) =
      Raise (AttributeError "'int' object has no attribute '_eq_vals'").
Proof.
  assert (∀ l, o_int 5 ≠ o_Location l) as Hother by discriminate.
  split; [exact Hother|].
  exact (proj1 (Location_eq_other_type example.pdb (o_int 5)) Hother).
Defined.

(** * Part IV: further properties *)

Set Warnings "-clear-no-such-hyp".

(** ** Strings *)

Section strings.
Implicit Types (s t u pre suf : string) (c : ascii).

Lemma str_app_cons c s t : String c s +:+ t = String c (s +:+ t).
Proof. reflexivity. Qed.

Lemma str_app_nil_l s : "" +:+ s = s.
Proof. reflexivity. Qed.

Lemma str_app_nil_r s : s +:+ "" = s.
Proof. induction s as [|c s IH]; [done|]. by rewrite str_app_cons, IH. Qed.

Lemma str_app_assoc s t u : (s +:+ t) +:+ u = s +:+ (t +:+ u).
Proof. induction s as [|c s IH]; [done|]. by rewrite !str_app_cons, IH. Qed.

Lemma str_app_eq_nil s t : s +:+ t = "" → s = "" ∧ t = "".
Proof. by destruct s. Qed.

(** [s.startswith(pre)] says that [s] is [pre] followed by something. *)
Lemma startswith_iff s pre : startswith s pre = true ↔ ∃ t, s = pre +:+ t.
Proof.
  unfold startswith. revert pre. induction s as [|c s IH]; intros [|c' pre]; simpl.
  - split; [by exists ""|done].
  - split; [done|by intros [t ?]].
  - split; [by eexists|done].
  - destruct (ascii_dec c' c) as [->|Hc].
    + rewrite IH. split; intros [t Ht]; exists t.
      * by rewrite str_app_cons, Ht.
      * rewrite str_app_cons in Ht. by injection Ht.
    + split; [done|]. intros [t Ht]. rewrite str_app_cons in Ht.
      injection Ht as ? ?. done.
Qed.

(** The first character of a string that is not empty is the first
    character of what the string is extended to. *)
Lemma startswith_app_l s t c :
  s ≠ "" → startswith (s +:+ t) (String c "") = startswith s (String c "").
Proof.
  unfold startswith. destruct s as [|c' s]; [done|]. intros _.
  rewrite str_app_cons. simpl.
  destruct (ascii_dec c c'); [|done]. by destruct s, t.
Qed.

Lemma rev_app_spec s t : String.rev_app s t = String.rev s +:+ t.
Proof.
  unfold String.rev. revert t. induction s as [|c s IH]; intros t; simpl; [done|].
  rewrite (IH (String c t)), (IH (String c "")). by rewrite str_app_assoc.
Qed.

Lemma rev_cons c s : String.rev (String c s) = String.rev s +:+ String c "".
Proof. unfold String.rev at 1. simpl. apply rev_app_spec. Qed.

Lemma rev_app s t : String.rev (s +:+ t) = String.rev t +:+ String.rev s.
Proof.
  induction s as [|c s IH].
  - change (String.rev "") with "". by rewrite str_app_nil_r.
  - by rewrite str_app_cons, !rev_cons, IH, str_app_assoc.
Qed.

Lemma rev_involutive s : String.rev (String.rev s) = s.
Proof.
  induction s as [|c s IH]; [done|].
  by rewrite rev_cons, rev_app, IH.
Qed.

(** [s.endswith(suf)] says that [s] is something followed by [suf]. *)
Lemma endswith_iff s suf : endswith s suf = true ↔ ∃ t, s = t +:+ suf.
Proof.
  unfold endswith. fold (startswith (String.rev s) (String.rev suf)).
  rewrite startswith_iff. split.
  - intros [t Ht]. exists (String.rev t).
    by rewrite <- (rev_involutive s), Ht, rev_app, rev_involutive.
  - intros [t ->]. exists (String.rev t). apply rev_app.
Qed.

Lemma contains_cons c s sub :
  contains (String c s) sub = startswith (String c s) sub || contains s sub.
Proof. reflexivity. Qed.

(** [sub in s] says that [sub] occurs in [s]. *)
Lemma contains_iff s sub : contains s sub = true ↔ ∃ t u, s = t +:+ sub +:+ u.
Proof.
  induction s as [|c s IH].
  - change (contains "" sub) with (startswith "" sub || false).
    rewrite orb_false_r, startswith_iff. split.
    + intros [u Hu]. by exists "", u.
    + intros (t & u & Hs). symmetry in Hs.
      apply str_app_eq_nil in Hs as [-> Hs]. by exists u.
  - rewrite contains_cons, orb_true_iff, IH, startswith_iff. split.
    + intros [[u Hu]|(t & u & ->)]; [by exists "", u|by exists (String c t), u].
    + intros ([|c' t] & u & Hs); [left; by exists u|right].
      rewrite str_app_cons in Hs. injection Hs as -> ->. by exists t, u.
Qed.
End strings.

(** ** Absolute paths *)

Section absolute.

Lemma isabs_not_empty (path_ : string) : posixpath.isabs path_ = true → path_ ≠ "".
Proof. by intros Habs ->. Qed.

Lemma normpath_isabs (path_ : string) :
  posixpath.isabs path_ = true → posixpath.isabs (posixpath.normpath path_) = true.
Proof.
  intros Habs. pose proof (isabs_not_empty _ Habs) as Hne.
  unfold posixpath.normpath. rewrite bool_decide_eq_false_2 by done.
  unfold posixpath.isabs in Habs. rewrite Habs.
  destruct (startswith path_ "//" && negb (startswith path_ "///")).
  - change (str_times "/" 2) with "//". rewrite !str_app_cons.
    rewrite bool_decide_eq_false_2 by done.
    apply startswith_iff. by eexists.
  - change (str_times "/" 1) with "/". rewrite !str_app_cons.
    rewrite bool_decide_eq_false_2 by done.
    apply startswith_iff. by eexists.
Qed.

Lemma join_isabs (cwd_ path_ : string) :
  posixpath.isabs cwd_ = true → posixpath.isabs (posixpath.join cwd_ [path_]) = true.
Proof.
  intros Habs. pose proof (isabs_not_empty _ Habs) as Hne.
  unfold posixpath.join, posixpath.isabs in *.
  destruct (startswith path_ "/") eqn:Hpath; [done|].
  destruct (bool_decide (cwd_ = "") || endswith cwd_ "/");
    by rewrite startswith_app_l.
Qed.

(** Seen from an absolute working directory, [abspath] returns an
    absolute path. *)
Lemma abspath_in_isabs (cwd_ path_ : string) :
  posixpath.isabs cwd_ = true →
  posixpath.isabs (posixpath.abspath_in cwd_ path_) = true.
Proof.
  intros Habs. unfold posixpath.abspath_in.
  destruct (posixpath.isabs path_) eqn:Hpath.
  - by apply normpath_isabs.
  - by apply normpath_isabs, join_isabs.
Qed.

(** The absolute form of an absolute path does not depend on the
    working directory. *)
Lemma abspath_in_absolute (cwd_ cwd' path_ : string) :
  posixpath.isabs path_ = true →
  posixpath.abspath_in cwd_ path_ = posixpath.abspath_in cwd' path_.
Proof. intros Habs. unfold posixpath.abspath_in. by rewrite Habs. Qed.
End absolute.

(** ** The derived properties of a repository *)

Section repository.
Implicit Types (self a b c : repository) (H : hashes).

(** X1.  [reference_provider] is ["Zenodo"] when the string [zenodo]
    occurs somewhere in the DOI, in lower case, and [None] when it does
    not; it has no other value. *)
Theorem reference_provider_zenodo self :
  (Repository.reference_provider self = Some "Zenodo" ↔
     ∃ t u, doi self = t +:+ "zenodo" +:+ u)
  ∧ (Repository.reference_provider self = None ↔
       ¬ ∃ t u, doi self = t +:+ "zenodo" +:+ u).
Proof.
  unfold Repository.reference_provider, Repository.reference.
  rewrite <- contains_iff.
  destruct (contains (doi self) "zenodo"); split; split; done.
Qed.

(** X2.  [refers_to] is ["Archive"] exactly for a URL that ends in
    [.zip], ["Other"] exactly for no URL or the empty one, and ["File"]
    exactly for every other URL. *)
Theorem refers_to_cases self :
  (Repository.refers_to self = "Archive" ↔ ∃ t, url self = Some (t +:+ ".zip"))
  ∧ (Repository.refers_to self = "Other" ↔ url self = None ∨ url self = Some "")
  ∧ (Repository.refers_to self = "File" ↔
       ∃ url_, url self = Some url_ ∧ url_ ≠ "" ∧ ¬ ∃ t, url_ = t +:+ ".zip").
Proof.
  unfold Repository.refers_to.
  assert (∀ t, t +:+ ".zip" ≠ "") as Hzip_ne.
  { intros t [_ ?]%str_app_eq_nil. done. }
  destruct (url self) as [url_|]; [|split_and!; split; naive_solver].
  pose proof (endswith_iff url_ ".zip") as Hzip.
  case_bool_decide as Hempty.
  - destruct (endswith url_ ".zip").
    + destruct (proj1 Hzip eq_refl) as [t ->].
      split_and!; split; try done; naive_solver.
    + assert (¬ ∃ t, url_ = t +:+ ".zip") as Hnot by (intros Ht; by apply Hzip in Ht).
      split_and!; split; try done; naive_solver.
  - subst url_.
    split_and!; split; try done; naive_solver.
Qed.

Lemma get_full_path_relative self (path_ : string) :
  posixpath.isabs path_ = false →
  Repository._get_full_path self path_ = top_prefix self +:+ path_.
Proof.
  intros Habs.
  unfold Repository._get_full_path, top_prefix, posixpath.join, posixpath.isabs in *.
  rewrite Habs. destruct (top_directory self) as [d|]; simpl; [|done].
  destruct (bool_decide (d = "") || endswith d "/"); [done|].
  by rewrite str_app_assoc.
Qed.

(** X3.  [_get_full_path] never alters the path it is handed: the
    result is a prefix followed by the path.  For a relative path the
    prefix is [top_directory], followed by a slash unless it ends in one
    (and nothing for a repository with no [top_directory] or an empty
    one).  For an absolute path the prefix is empty, whatever
    [top_directory] is: the directory is dropped. *)
Theorem get_full_path_prefix self (path_ : string) :
  (posixpath.isabs path_ = false →
   Repository._get_full_path self path_ = top_prefix self +:+ path_)
  ∧ (posixpath.isabs path_ = true → Repository._get_full_path self path_ = path_)
  ∧ endswith (Repository._get_full_path self path_) path_ = true.
Proof.
  split; [apply get_full_path_relative|].
  assert (posixpath.isabs path_ = true →
          Repository._get_full_path self path_ = path_) as Habs.
  { unfold Repository._get_full_path, posixpath.join, posixpath.isabs.
    by intros ->. }
  split; [done|]. apply endswith_iff.
  destruct (posixpath.isabs path_) eqn:Hpath.
  - exists "". by rewrite Habs.
  - exists (top_prefix self). by apply get_full_path_relative.
Qed.

(** X4.  Equality of repositories is an equivalence: a repository
    equals itself, the comparison gives the same in both directions, and
    two repositories equal to a third are equal. *)
Theorem Repository_eq_equivalence a b c :
  Repository.__eq__ a (v_Repository a) = Ok true
  ∧ Repository.__eq__ a (v_Repository b) = Repository.__eq__ b (v_Repository a)
  ∧ (Repository.__eq__ a (v_Repository b) = Ok true →
     Repository.__eq__ b (v_Repository c) = Ok true →
     Repository.__eq__ a (v_Repository c) = Ok true).
Proof.
  split; [by apply Repository_eq_true|]. split.
  - rewrite !Repository_eq_Ok. f_equal. apply bool_decide_ext. naive_solver.
  - rewrite !Repository_eq_true. intros [-> ->] [-> ->]. done.
Qed.

(** X5.  Repositories that compare equal have the same hash, whatever
    the interpreter's hash functions are: [__hash__] reads the two
    attributes [__eq__] compares and nothing else. *)
Theorem Repository_hash_eq H a b :
  Repository.__eq__ a (v_Repository b) = Ok true →
  Repository.__hash__ H a = Repository.__hash__ H b.
Proof.
  intros [Hdoi Hurl]%Repository_eq_true.
  unfold Repository.__hash__. by rewrite Hdoi, Hurl.
Qed.

End repository.

(** ** Repository.__init__ *)

Section Repository_init.
Context {S : Type}.
Implicit Types (os : OS) (s : S).

(** X7.  The constructor of a repository never raises and keeps [doi],
    [url] and [top_directory] as given.  The repository has a [_root]
    iff it was handed a root, and then it is the absolute form of that
    root: an absolute path when the working directory is one.  The
    working directory is asked for only for a relative root. *)
Theorem Repository_init_root (doi_ : string) (root url_ top : option string) os s :
  let r := {| doi := doi_; url := url_; top_directory := top;
              _root := posixpath.abspath_in (cwd os) <$> root |} in
  Repository.__init__ doi_ root url_ top os s =
    (match root with
     | Some root_ => if posixpath.isabs root_ then [] else [sys_getcwd]
     | None => []
     end, s, Ok r)
  ∧ (has_root r ↔ is_Some root)
  ∧ (posixpath.isabs (cwd os) = true → absolute_root r).
Proof.
  intros r. subst r. unfold Repository.__init__, has_root, absolute_root.
  destruct root as [root_|]; simpl.
  - rewrite (run_bind_Ok _ _ _ _ _ _ _ (run_abspath root_ os s)). simpl.
    rewrite List.app_nil_r. split; [done|]. split.
    + split; eauto.
    + intros Hcwd root' [= <-]. by apply abspath_in_isabs.
  - split; [done|]. split; [|done]. split; by intros [? ?].
Qed.
End Repository_init.

(** ** Equality and hash of locations *)

Section location_equality.
Implicit Types (a b c self : location) (v w u : value) (H : hashes).

Lemma same_value_trans u v w : same_value u v → same_value v w → same_value u w.
Proof.
  destruct u, v, w; simpl; try done; try congruence.
  intros [-> ->] [-> ->]. done.
Qed.

Lemma eq_refl_location a : Location.__eq__ a (o_Location a) = Ok true.
Proof.
  apply eq_true_iff. split; [done|]. intros key Hkey.
  destruct (getattr_eq_key a key Hkey) as [v Hv].
  exists v, v. split_and!; try done. apply same_value_refl.
Qed.

Lemma eq_trans_location a b c :
  Location.__eq__ a (o_Location b) = Ok true →
  Location.__eq__ b (o_Location c) = Ok true →
  Location.__eq__ a (o_Location c) = Ok true.
Proof.
  rewrite !eq_true_iff. intros [Hab Hkeys] [Hbc Hkeys'].
  split; [congruence|]. intros key Hkey.
  destruct (Hkeys key Hkey) as (u & v & Hu & Hv & Huv).
  rewrite Hab in Hkey.
  destruct (Hkeys' key Hkey) as (v' & w & Hv' & Hw & Hvw).
  exists u, w. split_and!; try done.
  apply (same_value_trans u v w); [done|]. congruence.
Qed.

(** The comparison of two locations returns unless it is that of two
    file locations. *)
Lemma eq_returns a b :
  (∀ fa fb, a = a_FileLocation fa → b = a_FileLocation fb →
            truthy (repo fa) = truthy (repo fb)) →
  ∃ k, Location.__eq__ a (o_Location b) = Ok k.
Proof.
  intros Hfiles. destruct (Location.__eq__ a (o_Location b)) as [k|e] eqn:Heq.
  - by exists k.
  - apply eq_locations_raises in Heq as (fa & fb & -> & -> & _ & Hrepo & _).
    by destruct Hrepo, (Hfiles fa fb).
Qed.

(** A comparison that returns, returns the truth value of what it
    decides. *)
Lemma eq_decides a b (P : Prop) `{!Decision P} k :
  Location.__eq__ a (o_Location b) = Ok k →
  (Location.__eq__ a (o_Location b) = Ok true ↔ P) →
  Location.__eq__ a (o_Location b) = Ok (bool_decide P).
Proof.
  intros Hk HP. rewrite Hk in *. f_equal. destruct k.
  - symmetry. apply bool_decide_eq_true_2. by apply HP.
  - symmetry. apply bool_decide_eq_false_2. intros HP'. by apply HP in HP'.
Qed.

Lemma eq_database (a b : database_location) :
  Location.__eq__ (a_DatabaseLocation a) (o_Location (a_DatabaseLocation b)) =
    Ok (bool_decide (db_class a = db_class b ∧ db_name a = db_name b
                     ∧ access_code a = access_code b ∧ version a = version b)).
Proof.
  destruct (eq_returns (a_DatabaseLocation a) (a_DatabaseLocation b)) as [k Hk]; [done|].
  apply (eq_decides _ _ _ k Hk). rewrite eq_true_iff. simpl. split.
  - intros [[= Hclass] Hkeys]. split; [done|].
    destruct (Hkeys "db_name") as (? & ? & [= <-] & [= <-] & [= Hname]);
      [rewrite !elem_of_cons; tauto|].
    destruct (Hkeys "access_code") as (? & ? & [= <-] & [= <-] & [= Hcode]);
      [rewrite !elem_of_cons; tauto|].
    destruct (Hkeys "version") as (? & ? & [= <-] & [= <-] & Hversion);
      [rewrite !elem_of_cons; tauto|].
    split_and!; try done.
    by destruct (version a), (version b); simpl in Hversion; simplify_eq.
  - intros (Hclass & Hname & Hcode & Hversion). split; [by rewrite Hclass|].
    intros key Hkey.
    repeat (apply elem_of_cons in Hkey as [->|Hkey];
            [eexists _, _; split_and!; [done|done|]|]).
    + simpl. by rewrite Hname.
    + simpl. by rewrite Hcode.
    + rewrite Hversion. apply same_value_refl.
    + by apply elem_of_nil in Hkey.
Qed.

Lemma eq_file (a b : file_location) :
  truthy (repo a) = truthy (repo b) →
  ∃ k, Location.__eq__ (a_FileLocation a) (o_Location (a_FileLocation b)) = Ok k
       ∧ (k = true ↔
          file_class a = file_class b ∧ same_repository (repo a) (repo b)
          ∧ path a = path b).
Proof.
  intros Hrepo.
  destruct (eq_returns (a_FileLocation a) (a_FileLocation b)) as [k Hk].
  { by intros fa fb [= <-] [= <-]. }
  exists k. split; [done|].
  transitivity (Location.__eq__ (a_FileLocation a) (o_Location (a_FileLocation b)) = Ok true).
  { rewrite Hk. split; [by intros ->|by intros [= ->]]. }
  rewrite eq_true_iff. simpl. split.
  - intros [[= Hclass] Hkeys]. split; [done|].
    destruct (Hkeys "repo") as (? & ? & [= <-] & [= <-] & Hsame); [rewrite !elem_of_cons; tauto|].
    destruct (Hkeys "path") as (? & ? & [= <-] & [= <-] & [= Hpath]); [rewrite !elem_of_cons; tauto|].
    split; [|done]. by destruct (repo a), (repo b).
  - intros (Hclass & Hsame & Hpath). split; [by rewrite Hclass|].
    intros key Hkey.
    repeat (apply elem_of_cons in Hkey as [->|Hkey];
            [eexists _, _; split_and!; [done|done|]|]).
    + by destruct (repo a), (repo b).
    + simpl. by rewrite Hpath.
    + rewrite Hclass. apply same_value_refl.
    + by apply elem_of_nil in Hkey.
Qed.

Lemma same_value_hash H v w : same_value v w → value_hash H v = value_hash H w.
Proof.
  destruct v, w; simpl; try done; try congruence.
  intros [Hdoi Hurl]. unfold Repository.__hash__. by rewrite Hdoi, Hurl.
Qed.

(** X8.  Equality of locations is an equivalence where it returns: a
    location equals itself, the comparison gives the same in both
    directions (the same truth value, or the same exception), and two
    locations equal to a third are equal. *)
Theorem Location_eq_equivalence a b c :
  Location.__eq__ a (o_Location a) = Ok true
  ∧ Location.__eq__ a (o_Location b) = Location.__eq__ b (o_Location a)
  ∧ (Location.__eq__ a (o_Location b) = Ok true →
     Location.__eq__ b (o_Location c) = Ok true →
     Location.__eq__ a (o_Location c) = Ok true).
Proof.
  split; [apply eq_refl_location|].
  split; [apply eq_locations_sym|apply eq_trans_location].
Qed.

(** What [__eq__] and [__hash__] compute on two locations. *)
Lemma eq_and_hash H a b :
  ∃ vs ws,
    Location.__eq__ a (o_Location b) =
      tuple_eq (v_class (Location.__class__ a) :: vs)
        (v_class (Location.__class__ b) :: ws)
    ∧ Location.__hash__ H a =
        Ok (hash_tuple H (value_hash H <$> v_class (Location.__class__ a) :: vs))
    ∧ Location.__hash__ H b =
        Ok (hash_tuple H (value_hash H <$> v_class (Location.__class__ b) :: ws)).
Proof.
  destruct (eq_vals_tuple a) as (vs & _ & Ha), (eq_vals_tuple b) as (ws & _ & Hb).
  exists vs, ws. unfold Location.__hash__, Location.__eq__. simpl.
  by rewrite Ha, Hb.
Qed.

(** X9.  [__hash__] of a location never raises, and locations that
    compare equal have the same hash, whatever the interpreter's hash
    functions are: [details], [file_size] and the identity of the object
    do not reach the hash. *)
Theorem Location_hash_eq H a b :
  (∃ h, Location.__hash__ H a = Ok h)
  ∧ (Location.__eq__ a (o_Location b) = Ok true →
     Location.__hash__ H a = Location.__hash__ H b).
Proof.
  destruct (eq_and_hash H a b) as (vs & ws & -> & -> & ->).
  split; [by eexists|].
  rewrite tuple_eq_true. intros Hsame. do 2 f_equal.
  induction Hsame as [|v w vs' ws' Hvw _ IH]; [done|].
  rewrite !fmap_cons. f_equal; [by apply same_value_hash|done].
Qed.

(** X10.  Two database locations always compare, and are equal iff
    they are of the same class and have the same [db_name], the same
    [access_code] and the same [version]. *)
Theorem DatabaseLocation_eq (a b : database_location) :
  Location.__eq__ (a_DatabaseLocation a) (o_Location (a_DatabaseLocation b)) =
    Ok (bool_decide (db_class a = db_class b ∧ db_name a = db_name b
                     ∧ access_code a = access_code b ∧ version a = version b)).
Proof. apply eq_database. Qed.

(** X11.  Of the objects the constructors of the five database
    subclasses build, two are equal iff they were built by the same
    constructor from the same code and the same version: the same code in
    two databases names two locations, and [details] plays no role. *)
Theorem database_constructors_eq (i j : nat)
    (mk mk' : N → string → option string → option string → database_location)
    (self self' : N) (code code' : string) (v v' d d' : option string) :
  database_constructors !! i = Some mk →
  database_constructors !! j = Some mk' →
  Location.__eq__ (a_DatabaseLocation (mk self code v d))
    (o_Location (a_DatabaseLocation (mk' self' code' v' d'))) =
    Ok (bool_decide (i = j ∧ code = code' ∧ v = v')).
Proof.
  intros Hi Hj. rewrite eq_database. f_equal. apply bool_decide_ext.
  destruct i as [|[|[|[|[|i]]]]]; simpl in Hi; try done; injection Hi as <-;
    (destruct j as [|[|[|[|[|j]]]]]; simpl in Hj; try done; injection Hj as <-);
    simpl; naive_solver.
Qed.

(** X12.  Two file locations that are both local or both in a
    repository always compare, and are equal iff they are of the same
    class, their repositories are equal (by [doi] and [url]) and their
    paths are the same string; [file_size] and [details] play no role.
    The comparison of two file locations raises, an [AttributeError], iff
    they are of the same class and one is in a repository and the other
    is local. *)
Theorem FileLocation_eq_cases (a b : file_location) :
  (truthy (repo a) = truthy (repo b) →
   ∃ k, Location.__eq__ (a_FileLocation a) (o_Location (a_FileLocation b)) = Ok k
        ∧ (k = true ↔
           file_class a = file_class b ∧ same_repository (repo a) (repo b)
           ∧ path a = path b))
  ∧ ((∃ e, Location.__eq__ (a_FileLocation a) (o_Location (a_FileLocation b)) = Raise e) ↔
     file_class a = file_class b ∧ truthy (repo a) ≠ truthy (repo b))
  ∧ (∀ e, Location.__eq__ (a_FileLocation a) (o_Location (a_FileLocation b)) = Raise e →
          e = no_attribute "NoneType" "doi").
Proof.
  split; [apply eq_file|]. split.
  - split.
    + intros [e (fa & fb & [= <-] & [= <-] & ? & ? & _)%eq_locations_raises]. done.
    + intros [Hclass Hrepo]. eexists. apply eq_locations_raises.
      by exists a, b.
  - by intros e (_ & _ & _ & _ & _ & _ & ->)%eq_locations_raises.
Qed.
End location_equality.

(** ** The constructor of file locations *)

Section FileLocation_init_more.
Context {S : Type}.
Implicit Types (os : OS) (s : S) (cls : Cls.file).

(** The constructor on a path, without a repository. *)
Lemma run_init_no_repo self cls (path_ : string) (details_ : option string) os s :
  FileLocation.__init__ self cls path_ None details_ os s =
    match stat os path_ with
    | None => ([sys_stat path_], s, Raise (ValueError (path_ +:+ " does not exist")))
    | Some st =>
        (sys_stat path_ :: sys_stat path_ ::
           (if posixpath.isabs path_ then [] else [sys_getcwd]), s,
         Ok {| file_base := {| ob_id := self; details := details_ |};
               file_class := cls; repo := None;
               path := posixpath.abspath_in (cwd os) path_;
               file_size := Some (st_size st) |})
    end.
Proof.
  unfold FileLocation.__init__. simpl.
  rewrite (run_bind_Ok _ _ _ _ _ _ _ (run_exists path_ os s)).
  destruct (stat os path_) as [st|] eqn:Hstat; simpl; [|done].
  unfold_py. rewrite Hstat, run_abspath. simpl.
  by rewrite app_nil_r.
Qed.

(** X13.  The constructor raises in one case only, no repository and
    nothing at the path, and then it raises the [ValueError] that names
    the path; in every other case it returns an object.  It never lets
    the [OSError] of [os.stat] out. *)
Theorem init_raises_iff self cls (path_ : string) (repo_ : option repository)
    (details_ : option string) os s e :
  result_of (FileLocation.__init__ self cls path_ repo_ details_ os s) = Raise e ↔
  repo_ = None ∧ stat os path_ = None
  ∧ e = ValueError (path_ +:+ " does not exist").
Proof.
  destruct repo_ as [r|].
  - split; [done|by intros [? _]].
  - rewrite run_init_no_repo. destruct (stat os path_) as [st|]; simpl.
    + split; [done|by intros (_ & ? & _)].
    + split; [by intros [= <-]|by intros (_ & _ & ->)].
Qed.

(** X14.  Two local file locations built in one state of the system
    compare equal iff they are of the same class and their paths have
    the same absolute form: two spellings of one path give equal
    locations, and neither [details] nor the size of the file is
    compared. *)
Theorem init_local_eq self self' cls cls' (path_ path' : string)
    (details_ details' : option string) os s s' a b :
  result_of (FileLocation.__init__ self cls path_ None details_ os s) = Ok a →
  result_of (FileLocation.__init__ self' cls' path' None details' os s') = Ok b →
  Location.__eq__ (a_FileLocation a) (o_Location (a_FileLocation b)) =
    Ok (bool_decide (cls = cls'
                     ∧ posixpath.abspath_in (cwd os) path_
                       = posixpath.abspath_in (cwd os) path')).
Proof.
  rewrite !run_init_no_repo.
  destruct (stat os path_) as [st|]; [|done].
  destruct (stat os path') as [st'|]; [|done].
  simpl. intros [= <-] [= <-].
  match goal with
  | |- Location.__eq__ (a_FileLocation ?x) (o_Location (a_FileLocation ?y)) = _ =>
      destruct (eq_file x y) as (k & Hk & Hiff); [done|]
  end.
  rewrite Hk. f_equal. simpl in Hiff. destruct k.
  - symmetry. apply bool_decide_eq_true_2.
    by destruct (proj1 Hiff eq_refl) as (? & _ & ?).
  - symmetry. apply bool_decide_eq_false_2. intros [-> Hpath].
    assert (false = true) as Hk' by (apply Hiff; by split_and!).
    done.
Qed.

(** X15.  In a system whose working directory is an absolute path, the
    path a local file location holds is never empty and is absolute, as
    the comment in the constructor wants it: what the location names does
    not depend on the directory the program is in later. *)
Theorem init_local_absolute self cls (path_ : string) (details_ : option string)
    os s fileloc :
  posixpath.isabs (cwd os) = true →
  result_of (FileLocation.__init__ self cls path_ None details_ os s) = Ok fileloc →
  is_local fileloc
  ∧ posixpath.isabs (path fileloc) = true
  ∧ ∀ cwd', posixpath.abspath_in cwd' (path fileloc)
            = posixpath.normpath (path fileloc).
Proof.
  intros Hcwd. rewrite run_init_no_repo.
  destruct (stat os path_) as [st|]; [|done]. simpl. intros [= <-]. simpl.
  pose proof (abspath_in_isabs (cwd os) path_ Hcwd) as Habs.
  split_and!; [split; [done|apply abspath_in_not_empty]|done|].
  intros cwd'. unfold posixpath.abspath_in at 1. by rewrite Habs.
Qed.
End FileLocation_init_more.

(** ** Relative paths *)

Section relative.
Implicit Types (s e a : string) (p l : list string).

Lemma split_not_sep s (c : ascii) e :
  e ∈ split s c → startswith e (String c "") = false.
Proof.
  revert e. induction s as [|ch s IH]; intros e; simpl.
  - by intros ->%list_elem_of_singleton.
  - destruct (Ascii.eqb ch c) eqn:Hch.
    + intros [->|He]%elem_of_cons; [done|by apply IH].
    + apply Ascii.eqb_neq in Hch.
      destruct (split s c) as [|comp comps].
      * intros ->%list_elem_of_singleton. unfold startswith. simpl.
        by destruct (ascii_dec c ch) as [->|].
      * intros [->|He]%elem_of_cons.
        -- unfold startswith. simpl. by destruct (ascii_dec c ch) as [->|].
        -- apply IH. by right.
Qed.

Lemma components_plain s : Forall plain (posixpath.components s).
Proof.
  unfold posixpath.components. apply Forall_forall. intros e He.
  apply list_elem_of_filter in He as [Hne He]. split; [done|].
  by apply (split_not_sep s posixpath.sep).
Qed.

Lemma join_plain a p : plain a → Forall plain p → plain (posixpath.join a p).
Proof.
  intros Ha Hp. revert a Ha. induction Hp as [|b p [Hb Hbabs] _ IH]; intros a [Ha Haabs].
  - done.
  - simpl. unfold posixpath.isabs in Hbabs. rewrite Hbabs. apply IH.
    destruct (bool_decide (a = "") || endswith a "/").
    + split; [by intros [? _]%str_app_eq_nil|].
      unfold posixpath.isabs. by rewrite startswith_app_l.
    + split; [by intros [? _]%str_app_eq_nil|].
      unfold posixpath.isabs. by rewrite startswith_app_l.
Qed.

(** What [relpath] returns is never empty and never absolute. *)
Lemma relpath_of_plain abs_path abs_start : plain (posixpath.relpath_of abs_path abs_start).
Proof.
  unfold posixpath.relpath_of.
  set (i := length (posixpath.commonprefix _ _)).
  assert (Forall plain
            (replicate (length (posixpath.components abs_start) - i) posixpath.pardir
             ++ drop i (posixpath.components abs_path))) as Hplain.
  { apply Forall_app. split.
    - apply Forall_replicate. by split.
    - apply Forall_drop, components_plain. }
  destruct (replicate _ _ ++ drop _ _) as [|a p]; [by split|].
  apply Forall_cons in Hplain as [Ha Hp]. by apply join_plain.
Qed.
End relative.

(** ** Every call of _update_in_repos *)

Section update_more.
Implicit Types (fileloc st : file_location) (repos pre post : list repository).
Implicit Types (os : OS) (r : repository).

Lemma run_update_in_repos_bound fileloc r repos os :
  repo fileloc = Some r →
  Repository._update_in_repos fileloc repos os = ([], fileloc, Ok tt).
Proof.
  intros Hrepo.
  unfold Repository._update_in_repos, Repository._update_in_repos_body.
  unfold_py. by rewrite Hrepo.
Qed.

(** The repositories up to the first one without a root. *)
Lemma split_at_unrooted repos :
  ∃ pre post, repos = pre ++ post ∧ Forall has_root pre
              ∧ (post = [] ∨ ∃ r post', post = r :: post' ∧ _root r = None).
Proof.
  induction repos as [|r repos (pre & post & -> & Hpre & Hpost)].
  - exists [], []. split_and!; [done|constructor|by left].
  - destruct (_root r) as [root|] eqn:Hroot.
    + exists (r :: pre), post. split_and!; [done| |done].
      constructor; [|done]. unfold has_root. rewrite Hroot. eauto.
    + exists [], (r :: pre ++ post). split_and!; [done|constructor|right; eauto].
Qed.

(** The call on a local file: the rounds for the repositories up to the
    first one without a root, at which it raises. *)
Lemma run_update_in_repos_cases fileloc repos os :
  is_local fileloc →
  ∃ calls pre post,
    repos = pre ++ post ∧ Forall has_root pre
    ∧ (post = [] ∨ ∃ r post', post = r :: post' ∧ _root r = None)
    ∧ Repository._update_in_repos fileloc repos os =
        (calls, foldl (round os (path fileloc)) fileloc pre,
         if bool_decide (post = []) then Ok tt
         else Raise (no_attribute "Repository" "_root")).
Proof.
  intros Hlocal.
  destruct (split_at_unrooted repos) as (pre & post & -> & Hpre & [->|Hpost]).
  - destruct (run_update_in_repos_local fileloc pre os Hlocal Hpre) as [calls Hrun].
    exists calls, pre, []. rewrite app_nil_r. split_and!; try done. by left.
  - destruct Hpost as (r & post' & -> & Hroot).
    destruct (run_update_in_repos_unrooted fileloc pre r post' os Hlocal Hpre Hroot)
      as [calls Hrun].
    exists calls, pre, (r :: post'). split_and!; try done. right. eauto.
Qed.

(** The location after the rounds for repositories with roots: as it
    was, or bound to one of them under the relative path to its root. *)
Lemma foldl_round_cases fileloc repos os :
  repo fileloc = None →
  let st := foldl (round os (path fileloc)) fileloc repos in
  st = fileloc
  ∨ ∃ r root, r ∈ repos ∧ _root r = Some root
              ∧ st = bind_to r (relative_to os (path fileloc) root) fileloc
              ∧ inside_root (path st).
Proof.
  intros Hrepo st.
  destruct (foldl_round_chosen os fileloc repos Hrepo) as [_|i r relpath (Hi & _ & _)];
    [by left|right].
  apply list_elem_of_lookup_2, elem_of_matches in Hi
    as (Hr & root & Hroot & -> & Hstart).
  exists r, root. split_and!; try done. simpl.
  destruct (relpath_of_plain (posixpath.abspath_in (cwd os) (path fileloc))
              (posixpath.abspath_in (cwd os) root)) as [Hne Habs].
  by split_and!.
Qed.

(** X16.  On a local file the call returns iff every repository has a
    root; the only exception it raises is the [AttributeError] of the
    missing [_root]. *)
Theorem update_in_repos_returns_iff fileloc repos os :
  is_local fileloc →
  (result_of (Repository._update_in_repos fileloc repos os) = Ok tt ↔
     Forall has_root repos)
  ∧ (∀ e, result_of (Repository._update_in_repos fileloc repos os) = Raise e →
          e = no_attribute "Repository" "_root").
Proof.
  intros Hlocal.
  destruct (run_update_in_repos_cases fileloc repos os Hlocal)
    as (calls & pre & post & -> & Hpre & Hpost & ->). simpl.
  destruct Hpost as [->|(r & post' & -> & Hroot)]; simpl.
  - rewrite List.app_nil_r. by split.
  - split; [|by intros e [= <-]]. split; [done|].
    intros [_ [[root Hr] _]%Forall_cons]%Forall_app. congruence.
Qed.
(** X17.  Whatever the repositories, and whether the call returns or
    raises, a local file is afterwards either exactly as it was, or bound
    to a repository of the sequence that has a root, under the path
    relative to that root; this path is never empty, never absolute and
    never starts with [".."].  The call never binds to a repository it
    was not handed and never leaves a path without its repository. *)
Theorem update_in_repos_binds_inside fileloc repos os :
  is_local fileloc →
  let st := state_of (Repository._update_in_repos fileloc repos os) in
  st = fileloc
  ∨ ∃ r root, r ∈ repos ∧ _root r = Some root
              ∧ st = bind_to r (relative_to os (path fileloc) root) fileloc
              ∧ inside_root (path st).
Proof.
  intros Hlocal.
  destruct (run_update_in_repos_cases fileloc repos os Hlocal)
    as (calls & pre & post & -> & _ & _ & ->). simpl.
  destruct (foldl_round_cases fileloc pre os (proj1 Hlocal))
    as [?|(r & root & Hr & ?)]; [by left|right].
  exists r, root. split; [|done]. apply elem_of_app. by left.
Qed.

(** A location with no repository and an empty path: the call changes
    nothing. *)
Lemma run_update_in_repos_empty_path fileloc repos os :
  repo fileloc = None → path fileloc = "" →
  state_of (Repository._update_in_repos fileloc repos os) = fileloc.
Proof.
  intros Hrepo Hpath.
  unfold Repository._update_in_repos, Repository._update_in_repos_body.
  rewrite (run_bind_Ok _ _ _ _ [] fileloc (repo fileloc)) by done.
  rewrite Hrepo. simpl.
  rewrite (run_bind_Ok _ _ _ _ [] fileloc (path fileloc)) by done.
  rewrite Hpath. simpl.
  destruct repos as [|r repos]; [done|]. simpl.
  unfold Repository.try_repo, Repository.get__root.
  destruct (_root r) as [root|]; by unfold_py.
Qed.

(** X18.  The call is idempotent on every location, with every sequence
    of repositories and also when it raises: a second call with the same
    repositories leaves the location as the first call left it. *)
Theorem update_in_repos_idempotent fileloc repos os :
  let st := state_of (Repository._update_in_repos fileloc repos os) in
  state_of (Repository._update_in_repos st repos os) = st.
Proof.
  intros st. subst st.
  destruct (repo fileloc) as [r|] eqn:Hrepo.
  { by rewrite !(run_update_in_repos_bound fileloc r). }
  destruct (decide (path fileloc = "")) as [Hpath|Hpath].
  { rewrite (run_update_in_repos_empty_path fileloc repos os Hrepo Hpath).
    by apply run_update_in_repos_empty_path. }
  assert (is_local fileloc) as Hlocal by done.
  destruct (run_update_in_repos_cases fileloc repos os Hlocal)
    as (calls & pre & post & Hrepos & _ & _ & Hrun).
  rewrite Hrun. unfold state_of. simpl.
  destruct (foldl_round_cases fileloc pre os Hrepo)
    as [Hst|(r & root & _ & _ & Hst & _)]; simpl in Hst; rewrite Hst.
  - by rewrite Hrun.
  - by rewrite (run_update_in_repos_bound _ r).
Qed.

(** X19.  The order of the repositories decides between matches of one
    length only: for a local file and repositories with roots, handing
    the repositories in another order binds the file iff it was bound,
    and to a path of the same length. *)
Theorem update_in_repos_order fileloc repos repos' os :
  is_local fileloc → Forall has_root repos → repos ≡ₚ repos' →
  let st := state_of (Repository._update_in_repos fileloc repos os) in
  let st' := state_of (Repository._update_in_repos fileloc repos' os) in
  (repo st = None ↔ repo st' = None) ∧ len (path st) = len (path st').
Proof.
  intros Hlocal Hroots Hperm.
  assert (Forall has_root repos') as Hroots' by by rewrite <- Hperm.
  destruct (run_update_in_repos_local fileloc repos os Hlocal Hroots) as [calls ->].
  destruct (run_update_in_repos_local fileloc repos' os Hlocal Hroots') as [calls' ->].
  simpl.
  assert (matches os (path fileloc) repos ≡ₚ matches os (path fileloc) repos')
    as Hmatches by (unfold matches; by rewrite Hperm).
  destruct Hlocal as [Hrepo _].
  destruct (foldl_round_chosen os fileloc repos Hrepo)
    as [Hnone|i r relpath (Hi & Hmin & _)],
    (foldl_round_chosen os fileloc repos' Hrepo)
    as [Hnone'|i' r' relpath' (Hi' & Hmin' & _)]; simpl.
  - done.
  - rewrite Hnone in Hmatches. apply Permutation_nil_l in Hmatches.
    by rewrite <- Hmatches in Hi'.
  - rewrite Hnone' in Hmatches. apply Permutation_nil_r in Hmatches.
    by rewrite Hmatches in Hi.
  - split; [done|].
    apply list_elem_of_lookup_2 in Hi as Hin, Hi' as Hin'.
    rewrite Hmatches in Hin. rewrite <- Hmatches in Hin'.
    apply list_elem_of_lookup_1 in Hin as [j Hj], Hin' as [j' Hj'].
    specialize (Hmin _ _ Hj'). specialize (Hmin' _ _ Hj). simpl in *.
    unfold len in *. lia.
Qed.

Lemma relative_to_absolute os os' (orig_path root : string) :
  posixpath.isabs orig_path = true → posixpath.isabs root = true →
  relative_to os orig_path root = relative_to os' orig_path root.
Proof.
  intros Horig Hroot. unfold relative_to.
  by rewrite (abspath_in_absolute (cwd os) (cwd os') orig_path),
    (abspath_in_absolute (cwd os) (cwd os') root).
Qed.

Lemma round_absolute os os' (orig_path : string) fileloc r :
  posixpath.isabs orig_path = true → absolute_root r →
  round os orig_path fileloc r = round os' orig_path fileloc r.
Proof.
  intros Horig Hr. unfold round, match_of.
  destruct (_root r) as [root|] eqn:Hroot; simpl; [|done].
  by rewrite (relative_to_absolute os os' orig_path root) by auto.
Qed.

(** A round on absolute paths makes no system call. *)
Lemma run_try_repo_absolute os (orig_path : string) fileloc r :
  posixpath.isabs orig_path = true → absolute_root r →
  Repository.try_repo orig_path r os fileloc =
    match _root r with
    | Some _ => ([], round os orig_path fileloc r, Ok tt)
    | None => ([], fileloc, Raise (no_attribute "Repository" "_root"))
    end.
Proof.
  intros Horig Hr. pose proof (isabs_not_empty _ Horig) as Hpath.
  unfold Repository.try_repo, Repository.get__root, round, match_of.
  destruct (_root r) as [root|] eqn:Hroot; simpl; [|done].
  rewrite (run_bind_Ok _ _ _ _ [] fileloc root) by done.
  rewrite (run_bind_Ok _ _ _ _ _ _ _ (run_relpath orig_path root os fileloc Hpath)).
  rewrite Horig, (Hr root Hroot). fold (relative_to os orig_path root).
  destruct (startswith (relative_to os orig_path root) "..") eqn:Hstart; simpl;
    [done|].
  unfold_py. simpl.
  by destruct (is_None (repo fileloc) || _).
Qed.

Lemma run_for_each_absolute os os' (orig_path : string) repos fileloc :
  posixpath.isabs orig_path = true → Forall absolute_root repos →
  for_each repos (Repository.try_repo orig_path) os fileloc =
    for_each repos (Repository.try_repo orig_path) os' fileloc
  ∧ calls_of (for_each repos (Repository.try_repo orig_path) os fileloc) = [].
Proof.
  intros Horig Hrepos. revert fileloc.
  induction Hrepos as [|r repos Hr _ IH]; intros fileloc; simpl; [done|].
  pose proof (run_try_repo_absolute os orig_path fileloc r Horig Hr) as Hrun.
  pose proof (run_try_repo_absolute os' orig_path fileloc r Horig Hr) as Hrun'.
  rewrite <- (round_absolute os os' orig_path fileloc r Horig Hr) in Hrun'.
  destruct (_root r) as [root|].
  - rewrite (run_bind_Ok _ _ _ _ _ _ _ Hrun), (run_bind_Ok _ _ _ _ _ _ _ Hrun').
    destruct (IH (round os orig_path fileloc r)) as [<- ->]. done.
  - by rewrite (run_bind_Raise _ _ _ _ _ _ _ Hrun), (run_bind_Raise _ _ _ _ _ _ _ Hrun').
Qed.

(** X20.  On a location whose path is absolute and repositories whose
    roots are absolute, which is what the two constructors store, the
    call makes no system call and does the same whatever the working
    directory has become and whatever is on the disk by then. *)
Theorem update_in_repos_absolute fileloc repos os os' :
  posixpath.isabs (path fileloc) = true → Forall absolute_root repos →
  Repository._update_in_repos fileloc repos os
    = Repository._update_in_repos fileloc repos os'
  ∧ calls_of (Repository._update_in_repos fileloc repos os) = [].
Proof.
  intros Hpath Hrepos.
  destruct (repo fileloc) as [r|] eqn:Hrepo.
  { by rewrite !(run_update_in_repos_bound fileloc r). }
  destruct (run_for_each_absolute os os' (path fileloc) repos fileloc Hpath Hrepos)
    as [Hsame Hcalls].
  unfold Repository._update_in_repos, Repository._update_in_repos_body.
  rewrite !(run_bind_Ok _ _ _ _ [] fileloc (repo fileloc)) by done.
  rewrite Hrepo. simpl.
  rewrite !(run_bind_Ok _ _ _ _ [] fileloc (path fileloc)) by done.
  simpl. by rewrite <- Hsame, Hcalls.
Qed.

(** X21.  When the call has bound a local file to a repository, the
    full path of the file in that repository is the repository's
    [top_directory] (with its slash) followed by the new path: the path
    is relative, so [_get_full_path] never drops the directory. *)
Theorem update_in_repos_full_path fileloc repos os r :
  is_local fileloc →
  let st := state_of (Repository._update_in_repos fileloc repos os) in
  repo st = Some r →
  r ∈ repos
  ∧ Repository._get_full_path r (path st) = top_prefix r +:+ path st.
Proof.
  intros Hlocal.
  destruct (run_update_in_repos_cases fileloc repos os Hlocal)
    as (calls & pre & post & -> & _ & _ & ->). unfold state_of. simpl.
  destruct (foldl_round_cases fileloc pre os (proj1 Hlocal))
    as [Hst|(r' & root & Hr' & _ & Hst & _ & Habs & _)]; simpl in Hst.
  - rewrite Hst, (proj1 Hlocal). done.
  - simpl in Habs. rewrite Hst in *. simpl. intros [= <-].
    split; [apply elem_of_app; by left|].
    by apply get_full_path_relative.
Qed.
End update_more.

(** ** The further properties at the example *)

Lemma get_full_path_prefix_witness :
  posixpath.isabs "sub/file.txt" = false
  ∧ Repository._get_full_path example.unrooted "sub/file.txt"
    = "nup84-v1.0/" +:+ "sub/file.txt".
Proof.
  split; [reflexivity|].
  exact (proj1 (get_full_path_prefix example.unrooted "sub/file.txt") eq_refl).
Defined.

Lemma Repository_eq_equivalence_witness :
  Repository.__eq__ example.proj (v_Repository example.proj_archive) = Ok true
  ∧ Repository.__eq__ example.proj_archive (v_Repository example.proj) = Ok true
  ∧ Repository.__eq__ example.proj (v_Repository example.proj) = Ok true.
Proof.
  assert (Repository.__eq__ example.proj (v_Repository example.proj_archive) = Ok true)
    as H1 by reflexivity.
  assert (Repository.__eq__ example.proj_archive (v_Repository example.proj) = Ok true)
    as H2 by reflexivity.
  split; [exact H1|]. split; [exact H2|].
  exact (proj2 (proj2 (Repository_eq_equivalence example.proj example.proj_archive
                         example.proj)) H1 H2).
Defined.

Lemma Repository_hash_eq_witness :
  Repository.__eq__ example.proj (v_Repository example.proj_archive) = Ok true
  ∧ Repository.__hash__ example.hashes example.proj
    = Repository.__hash__ example.hashes example.proj_archive.
Proof.
  split; [reflexivity|].
  apply (Repository_hash_eq example.hashes example.proj example.proj_archive).
  reflexivity.
Defined.


Lemma Repository_init_root_witness :
  posixpath.isabs (cwd example.os) = true
  ∧ absolute_root example.proj.
Proof.
  split; [reflexivity|].
  exact (proj2 (proj2 (Repository_init_root "10.5281/zenodo.46266" (Some ".")
                         None None example.os tt)) eq_refl).
Defined.

Lemma Location_eq_equivalence_witness :
  Location.__eq__ (a_FileLocation example.file)
    (o_Location (a_FileLocation example.file_again)) = Ok true
  ∧ Location.__eq__ (a_FileLocation example.file_again)
      (o_Location (a_FileLocation example.file)) = Ok true
  ∧ Location.__eq__ (a_FileLocation example.file)
      (o_Location (a_FileLocation example.file)) = Ok true.
Proof.
  assert (Location.__eq__ (a_FileLocation example.file)
            (o_Location (a_FileLocation example.file_again)) = Ok true)
    as H1 by reflexivity.
  assert (Location.__eq__ (a_FileLocation example.file_again)
            (o_Location (a_FileLocation example.file)) = Ok true)
    as H2 by reflexivity.
  split; [exact H1|]. split; [exact H2|].
  exact (proj2 (proj2 (Location_eq_equivalence (a_FileLocation example.file)
                         (a_FileLocation example.file_again)
                         (a_FileLocation example.file))) H1 H2).
Defined.

Lemma Location_hash_eq_witness :
  Location.__eq__ (a_FileLocation example.file)
    (o_Location (a_FileLocation example.file_again)) = Ok true
  ∧ Location.__hash__ example.hashes (a_FileLocation example.file)
    = Location.__hash__ example.hashes (a_FileLocation example.file_again).
Proof.
  split; [reflexivity|].
  apply (Location_hash_eq example.hashes (a_FileLocation example.file)
           (a_FileLocation example.file_again)).
  reflexivity.
Defined.

Lemma database_constructors_eq_witness :
  database_constructors !! 1%nat = Some PDBLocation.__init__
  ∧ database_constructors !! 0%nat = Some EMDBLocation.__init__
  ∧ Location.__eq__ (a_DatabaseLocation (PDBLocation.__init__ 2 "1abc" None None))
      (o_Location (a_DatabaseLocation (EMDBLocation.__init__ 3 "1abc" None None)))
    = Ok false.
Proof.
  split; [reflexivity|]. split; [reflexivity|].
  exact (database_constructors_eq 1 0 PDBLocation.__init__ EMDBLocation.__init__
           2 3 "1abc" "1abc" None None None None eq_refl eq_refl).
Defined.

Lemma FileLocation_eq_cases_witness :
  truthy (repo example.file) = truthy (repo example.file_again)
  ∧ ∃ k, Location.__eq__ (a_FileLocation example.file)
           (o_Location (a_FileLocation example.file_again)) = Ok k
         ∧ (k = true ↔
            file_class example.file = file_class example.file_again
            ∧ same_repository (repo example.file) (repo example.file_again)
            ∧ path example.file = path example.file_again).
Proof.
  split; [reflexivity|].
  exact (proj1 (FileLocation_eq_cases example.file example.file_again) eq_refl).
Defined.

Lemma init_local_eq_witness :
  result_of (FileLocation.__init__ 1 Cls.InputFileLocation "sub/file.txt" None None
               example.os tt) = Ok example.file
  ∧ result_of (FileLocation.__init__ 4 Cls.InputFileLocation "/data/proj/sub/file.txt"
                 None (Some "the same file") example.os tt) = Ok example.file_again
  ∧ Location.__eq__ (a_FileLocation example.file)
      (o_Location (a_FileLocation example.file_again)) = Ok true.
Proof.
  split; [reflexivity|]. split; [reflexivity|].
  exact (init_local_eq 1 4 Cls.InputFileLocation Cls.InputFileLocation
           "sub/file.txt" "/data/proj/sub/file.txt" None (Some "the same file")
           example.os tt tt example.file example.file_again eq_refl eq_refl).
Defined.

Lemma init_local_absolute_witness :
  posixpath.isabs (cwd example.os) = true
  ∧ result_of (FileLocation.__init__ 1 Cls.InputFileLocation "sub/file.txt" None None
                 example.os tt) = Ok example.file
  ∧ is_local example.file
  ∧ posixpath.isabs (path example.file) = true.
Proof.
  split; [reflexivity|]. split; [reflexivity|].
  destruct (init_local_absolute 1 Cls.InputFileLocation "sub/file.txt" None
              example.os tt example.file eq_refl eq_refl) as (Hlocal & Habs & _).
  exact (conj Hlocal Habs).
Defined.

Lemma example_file_is_local : is_local example.file.
Proof. split; [reflexivity|discriminate]. Defined.

Lemma update_in_repos_returns_iff_witness :
  is_local example.file
  ∧ (result_of (Repository._update_in_repos example.file
                  [example.proj; example.unrooted] example.os) = Ok tt ↔
     Forall has_root [example.proj; example.unrooted]).
Proof.
  split; [exact example_file_is_local|].
  exact (proj1 (update_in_repos_returns_iff example.file
                  [example.proj; example.unrooted] example.os example_file_is_local)).
Defined.

Lemma update_in_repos_binds_inside_witness :
  is_local example.file
  ∧ (state_of (Repository._update_in_repos example.file
                 [example.proj; example.unrooted] example.os) = example.file
     ∨ ∃ r root, r ∈ [example.proj; example.unrooted] ∧ _root r = Some root
         ∧ state_of (Repository._update_in_repos example.file
                       [example.proj; example.unrooted] example.os)
           = bind_to r (relative_to example.os (path example.file) root) example.file
         ∧ inside_root
             (path (state_of (Repository._update_in_repos example.file
                                [example.proj; example.unrooted] example.os)))).
Proof.
  split; [exact example_file_is_local|].
  exact (update_in_repos_binds_inside example.file [example.proj; example.unrooted]
           example.os example_file_is_local).
Defined.

Lemma update_in_repos_order_witness :
  is_local example.file
  ∧ Forall has_root [example.proj; example.sub]
  ∧ [example.proj; example.sub] ≡ₚ [example.sub; example.proj]
  ∧ len (path (state_of (Repository._update_in_repos example.file
                           [example.proj; example.sub] example.os)))
    = len (path (state_of (Repository._update_in_repos example.file
                             [example.sub; example.proj] example.os))).
Proof.
  assert (Forall has_root [example.proj; example.sub]) as Hroots.
  { repeat constructor; unfold has_root; simpl; eauto. }
  assert ([example.proj; example.sub] ≡ₚ [example.sub; example.proj]) as Hperm.
  { apply perm_swap. }
  split; [exact example_file_is_local|]. split; [exact Hroots|]. split; [exact Hperm|].
  exact (proj2 (update_in_repos_order example.file [example.proj; example.sub]
                  [example.sub; example.proj] example.os example_file_is_local
                  Hroots Hperm)).
Defined.

Lemma update_in_repos_absolute_witness :
  posixpath.isabs (path example.file) = true
  ∧ Forall absolute_root [example.proj; example.sub]
  ∧ Repository._update_in_repos example.file [example.proj; example.sub] example.os
    = Repository._update_in_repos example.file [example.proj; example.sub]
        example.os_later.
Proof.
  assert (Forall absolute_root [example.proj; example.sub]) as Hroots.
  { repeat constructor; intros root [= <-]; reflexivity. }
  split; [reflexivity|]. split; [exact Hroots|].
  exact (proj1 (update_in_repos_absolute example.file [example.proj; example.sub]
                  example.os example.os_later eq_refl Hroots)).
Defined.

Lemma update_in_repos_full_path_witness :
  is_local example.file
  ∧ repo (state_of (Repository._update_in_repos example.file
                      [example.release] example.os))
    = Some example.release
  ∧ Repository._get_full_path example.release
      (path (state_of (Repository._update_in_repos example.file
                         [example.release] example.os)))
    = "proj-1.0/" +:+ "sub/file.txt".
Proof.
  split; [exact example_file_is_local|]. split; [reflexivity|].
  exact (proj2 (update_in_repos_full_path example.file [example.release] example.os
                  example.release example_file_is_local eq_refl)).
Defined.
